(** * sofia: Common Encryption boxes ([pssh], [tenc], [senc]) and
    the CTR sample decryptor of [encryption.go], embedded in Rocq.

    Conventions of the embedding.
    - A Go [[]byte] is a [list byte]; [len] and every Go [int] are
      integers in [Z] (Go's [int] is 64 bits wide on the platforms the
      package targets, and no quantity below leaves that range);
      [uint32] arithmetic that can wrap is reduced modulo [2^32]
      where the source performs it.
    - A method with a pointer receiver is a computation over a frame
      holding the receiver and the local cursor [p]; it ends in [Ok],
      in a returned error [Err msg], or in a run-time panic [Panic]
      (a slice expression out of range).  The frame at that moment is
      kept in all three cases, since the receiver is written in place.
    - [make(T, n)] allocates [n] zero values; memory exhaustion is not
      modelled.  A buffer's capacity is its length, so a slice
      expression reaching past [len] panics.
    - A keyed [cipher.Block] encrypts a block as a function of the
      block alone. *)

From Stdlib Require Import ZArith Lia Bool String.
From Stdlib.Strings Require Import Byte.
From stdpp Require Import base tactics option list.

#[local] Open Scope Z_scope.

(** ** Bytes and fixed-width integers *)

Definition len {A : Type} (l : list A) : Z := Z.of_nat (length l).

(** The Go slice expression [l[lo:hi]], for [0 <= lo <= hi <= len l]. *)
Definition slice {A : Type} (l : list A) (lo hi : Z) : list A :=
  take (Z.to_nat (hi - lo)) (drop (Z.to_nat lo) l).

(** Go's builtin [copy(dst, src)]: overwrite the first
    [min (len dst) (len src)] elements of [dst]. *)
Definition copy {A : Type} (dst src : list A) : list A :=
  take (length dst) src ++ drop (length src) dst.

Definition u8 (b : byte) : Z := Z.of_N (Byte.to_N b).

(** The conversion [byte(x)] of an unsigned integer. *)
Definition byte_of_Z (z : Z) : byte :=
  match Byte.of_N (Z.to_N (z mod 256)) with
  | Some b => b
  | None => x00
  end.

Definition be16 (bs : list byte) : Z :=
  match bs with
  | [b0; b1] => u8 b0 * 256 + u8 b1
  | _ => 0
  end.

Definition be32 (bs : list byte) : Z :=
  match bs with
  | [b0; b1; b2; b3] =>
      u8 b0 * 16777216 + u8 b1 * 65536 + u8 b2 * 256 + u8 b3
  | _ => 0
  end.

Definition u32_mul (a b : Z) : Z := (a * b) mod 4294967296.

Definition byte_xor (a b : byte) : byte :=
  let '(a0, (a1, (a2, (a3, (a4, (a5, (a6, a7))))))) := Byte.to_bits a in
  let '(b0, (b1, (b2, (b3, (b4, (b5, (b6, b7))))))) := Byte.to_bits b in
  Byte.of_bits
    (xorb a0 b0, (xorb a1 b1, (xorb a2 b2, (xorb a3 b3,
    (xorb a4 b4, (xorb a5 b5, (xorb a6 b6, xorb a7 b7))))))).

Definition zero16 : list byte := replicate 16 x00.

(** ** Outcomes and the frame monad *)

Inductive result (A : Type) : Type :=
| Ok (a : A)
| Err (msg : string)
| Panic (msg : string).
Arguments Ok {A} a.
Arguments Err {A} msg.
Arguments Panic {A} msg.

Definition M (S A : Type) : Type := S -> result A * S.

#[export] Instance M_ret {S : Type} : MRet (M S) :=
  fun A a s => (Ok a, s).

#[export] Instance M_bind {S : Type} : MBind (M S) :=
  fun A B f m s =>
    match m s with
    | (Ok a, s') => f a s'
    | (Err e, s') => (Err e, s')
    | (Panic e, s') => (Panic e, s')
    end.

(** [return errors.New(msg)] *)
Definition throw {S A : Type} (msg : string) : M S A :=
  fun s => (Err msg, s).

(** [if c { return errors.New(msg) }] *)
Definition fail_if {S : Type} (c : bool) (msg : string) : M S unit :=
  if c then throw msg else mret tt.

(** [for i := lo; i < lo + n; i++ { body }], the body leaving only by
    a returned error or a panic. *)
Fixpoint for_ {S : Type} (n : nat) (i : Z) (body : Z -> M S unit) : M S unit :=
  match n with
  | O => mret tt
  | Datatypes.S n' => body i ;; for_ n' (i + 1) body
  end.

(** ** The cursor and the box header *)

(** Modelled from the spec: the [parser] cursor is declared in a file
    that is not among the sources.  It is the sequential big-endian
    reader of the spec: a buffer and a read offset; [Bytes n] returns
    the next [n] raw bytes and advances the offset by [n]; [Byte],
    [Uint16] and [Uint32] read 1, 2 and 4 bytes, the integers
    big-endian.  It performs no check of its own: reading past the
    buffer is Go's slice-bounds panic. *)
Record parser : Type := Parser { data : list byte; offset : Z }.

Record frame (B : Type) : Type := Frame { self : B; p : parser }.
Arguments Frame {B} self p.
Arguments self {B} f.
Arguments p {B} f.

Section Cursor.
Context {B : Type}.

Definition get_self : M (frame B) B := fun st => (Ok (self st), st).

Definition modify_self (f : B -> B) : M (frame B) unit :=
  fun st => (Ok tt, Frame (f (self st)) (p st)).

(** [p := parser{data: d, offset: o}] *)
Definition set_p (d : list byte) (o : Z) : M (frame B) unit :=
  fun st => (Ok tt, Frame (self st) (Parser d o)).

Definition get_offset : M (frame B) Z := fun st => (Ok (offset (p st)), st).

(** Modelled from the spec: [p.Bytes(n)]. *)
Definition Bytes (n : Z) : M (frame B) (list byte) :=
  fun st =>
    let d := data (p st) in
    let o := offset (p st) in
    if (0 <=? n) && (o + n <=? len d) then
      (Ok (slice d o (o + n)), Frame (self st) (Parser d (o + n)))
    else (Panic "slice bounds out of range", st).

(** Modelled from the spec: [p.Byte()]. *)
Definition Byte : M (frame B) byte :=
  bs ← Bytes 1; mret (nth 0 bs x00).

(** Modelled from the spec: [p.Uint16()]. *)
Definition Uint16 : M (frame B) Z :=
  bs ← Bytes 2; mret (be16 bs).

(** Modelled from the spec: [p.Uint32()]. *)
Definition Uint32 : M (frame B) Z :=
  bs ← Bytes 4; mret (be32 bs).
End Cursor.

(** Modelled from the spec: [BoxHeader] and [BoxHeader.Parse] are
    declared in a file that is not among the sources.  Every box
    begins with an 8-byte header: a 4-byte big-endian size and a 4-byte
    type code; a buffer too short to hold it is a length violation. *)
Record BoxHeader : Type := { Size : Z; Type_ : list byte }.

Definition BoxHeader_zero : BoxHeader :=
  {| Size := 0; Type_ := replicate 4 x00 |}.

Definition BoxHeader_Parse (h : BoxHeader) (d : list byte) : result unit * BoxHeader :=
  if len d <? 8 then (Err "box header too short", h)
  else (Ok tt, {| Size := be32 (slice d 0 4);
                  Type_ := copy (Type_ h) (slice d 4 8) |}).

(** ** PSSH *)

Module PsshBox.
Record t : Type := {
  Header : BoxHeader;
  Version : byte;
  Flags : list byte;        (* [3]byte *)
  SystemID : list byte;     (* [16]byte *)
  KIDs : list (list byte);  (* [][16]byte *)
  Data : list byte
}.

Definition zero : t :=
  {| Header := BoxHeader_zero; Version := x00; Flags := replicate 3 x00;
     SystemID := zero16; KIDs := []; Data := [] |}.

Definition set_Header h b :=
  {| Header := h; Version := Version b; Flags := Flags b;
     SystemID := SystemID b; KIDs := KIDs b; Data := Data b |}.
Definition set_Version v b :=
  {| Header := Header b; Version := v; Flags := Flags b;
     SystemID := SystemID b; KIDs := KIDs b; Data := Data b |}.
Definition set_Flags f b :=
  {| Header := Header b; Version := Version b; Flags := f;
     SystemID := SystemID b; KIDs := KIDs b; Data := Data b |}.
Definition set_SystemID s b :=
  {| Header := Header b; Version := Version b; Flags := Flags b;
     SystemID := s; KIDs := KIDs b; Data := Data b |}.
Definition set_KIDs k b :=
  {| Header := Header b; Version := Version b; Flags := Flags b;
     SystemID := SystemID b; KIDs := k; Data := Data b |}.
Definition set_Data d b :=
  {| Header := Header b; Version := Version b; Flags := Flags b;
     SystemID := SystemID b; KIDs := KIDs b; Data := d |}.

(** [b.Header.Parse(data)] *)
Definition parse_header (d : list byte) : M (frame t) unit :=
  fun st =>
    let '(r, h) := BoxHeader_Parse (Header (self st)) d in
    (r, Frame (set_Header h (self st)) (p st)).

(** [copy(b.KIDs[i][:], p.Bytes(16))] *)
Definition read_kid (i : Z) : M (frame t) unit :=
  bs ← Bytes 16;
  modify_self (fun b =>
    set_KIDs (alter (fun a => copy a bs) (Z.to_nat i) (KIDs b)) b).

Definition parse_kids (d : list byte) : M (frame t) unit :=
  o ← get_offset;
  fail_if (len d <? o + 4) "pssh too short for KID count";;
  kidCount ← Uint32;
  o ← get_offset;
  fail_if (len d <? o + u32_mul kidCount 16) "pssh too short for KIDs";;
  modify_self (set_KIDs (replicate (Z.to_nat kidCount) zero16));;
  for_ (Z.to_nat kidCount) 0 read_kid.

Definition parse_data (d : list byte) : M (frame t) unit :=
  o ← get_offset;
  fail_if (len d <? o + 4) "pssh too short for data size";;
  dataSize ← Uint32;
  o ← get_offset;
  fail_if (len d <? o + dataSize) "pssh size mismatch";;
  bs ← Bytes dataSize;
  modify_self (set_Data bs).

Definition parse (d : list byte) : M (frame t) unit :=
  parse_header d;;
  fail_if (len d <? 28) "pssh too short";;
  set_p d 8;;
  versionAndFlags ← Bytes 4;
  modify_self (set_Version (nth 0 versionAndFlags x00));;
  modify_self (fun b => set_Flags (copy (Flags b) (drop 1 versionAndFlags)) b);;
  sid ← Bytes 16;
  modify_self (fun b => set_SystemID (copy (SystemID b) sid) b);;
  b ← get_self;
  (if 0 <? u8 (Version b) then parse_kids d else mret tt);;
  parse_data d.

(** [func (b *PsshBox) Parse(data []byte) error]: the returned
    outcome and the receiver as the call leaves it. *)
Definition Parse (b : t) (d : list byte) : result unit * t :=
  let '(r, st) := parse d (Frame b (Parser [] 0)) in (r, self st).
End PsshBox.

(** ** TENC *)

Module TencBox.
Record t : Type := {
  Header : BoxHeader;
  Version : byte;
  Flags : Z;                        (* uint32 *)
  DefaultIsProtected : byte;
  DefaultPerSampleIVSize : byte;
  DefaultKID : list byte;           (* [16]byte *)
  DefaultConstantIVSize : byte;
  DefaultConstantIV : list byte
}.

Definition zero : t :=
  {| Header := BoxHeader_zero; Version := x00; Flags := 0;
     DefaultIsProtected := x00; DefaultPerSampleIVSize := x00;
     DefaultKID := zero16; DefaultConstantIVSize := x00;
     DefaultConstantIV := [] |}.

Definition set_Header h b :=
  {| Header := h; Version := Version b; Flags := Flags b;
     DefaultIsProtected := DefaultIsProtected b;
     DefaultPerSampleIVSize := DefaultPerSampleIVSize b;
     DefaultKID := DefaultKID b;
     DefaultConstantIVSize := DefaultConstantIVSize b;
     DefaultConstantIV := DefaultConstantIV b |}.
Definition set_Version v b :=
  {| Header := Header b; Version := v; Flags := Flags b;
     DefaultIsProtected := DefaultIsProtected b;
     DefaultPerSampleIVSize := DefaultPerSampleIVSize b;
     DefaultKID := DefaultKID b;
     DefaultConstantIVSize := DefaultConstantIVSize b;
     DefaultConstantIV := DefaultConstantIV b |}.
Definition set_Flags f b :=
  {| Header := Header b; Version := Version b; Flags := f;
     DefaultIsProtected := DefaultIsProtected b;
     DefaultPerSampleIVSize := DefaultPerSampleIVSize b;
     DefaultKID := DefaultKID b;
     DefaultConstantIVSize := DefaultConstantIVSize b;
     DefaultConstantIV := DefaultConstantIV b |}.
Definition set_DefaultIsProtected x b :=
  {| Header := Header b; Version := Version b; Flags := Flags b;
     DefaultIsProtected := x;
     DefaultPerSampleIVSize := DefaultPerSampleIVSize b;
     DefaultKID := DefaultKID b;
     DefaultConstantIVSize := DefaultConstantIVSize b;
     DefaultConstantIV := DefaultConstantIV b |}.
Definition set_DefaultPerSampleIVSize x b :=
  {| Header := Header b; Version := Version b; Flags := Flags b;
     DefaultIsProtected := DefaultIsProtected b;
     DefaultPerSampleIVSize := x;
     DefaultKID := DefaultKID b;
     DefaultConstantIVSize := DefaultConstantIVSize b;
     DefaultConstantIV := DefaultConstantIV b |}.
Definition set_DefaultKID k b :=
  {| Header := Header b; Version := Version b; Flags := Flags b;
     DefaultIsProtected := DefaultIsProtected b;
     DefaultPerSampleIVSize := DefaultPerSampleIVSize b;
     DefaultKID := k;
     DefaultConstantIVSize := DefaultConstantIVSize b;
     DefaultConstantIV := DefaultConstantIV b |}.
Definition set_DefaultConstantIVSize x b :=
  {| Header := Header b; Version := Version b; Flags := Flags b;
     DefaultIsProtected := DefaultIsProtected b;
     DefaultPerSampleIVSize := DefaultPerSampleIVSize b;
     DefaultKID := DefaultKID b;
     DefaultConstantIVSize := x;
     DefaultConstantIV := DefaultConstantIV b |}.
Definition set_DefaultConstantIV iv b :=
  {| Header := Header b; Version := Version b; Flags := Flags b;
     DefaultIsProtected := DefaultIsProtected b;
     DefaultPerSampleIVSize := DefaultPerSampleIVSize b;
     DefaultKID := DefaultKID b;
     DefaultConstantIVSize := DefaultConstantIVSize b;
     DefaultConstantIV := iv |}.

(** [b.Header.Parse(data)] *)
Definition parse_header (d : list byte) : M (frame t) unit :=
  fun st =>
    let '(r, h) := BoxHeader_Parse (Header (self st)) d in
    (r, Frame (set_Header h (self st)) (p st)).

(** The body of [if p.offset < int(b.Header.Size)]. *)
Definition parse_constant_iv (d : list byte) : M (frame t) unit :=
  o ← get_offset;
  fail_if (len d <? o + 1) "tenc box truncated before constant IV size";;
  sz ← Byte;
  modify_self (set_DefaultConstantIVSize sz);;
  o ← get_offset;
  b ← get_self;
  fail_if (len d <? o + u8 (DefaultConstantIVSize b))
          "tenc box truncated, not enough data for constant IV";;
  iv ← Bytes (u8 (DefaultConstantIVSize b));
  modify_self (set_DefaultConstantIV iv).

(** The body of [if b.Version == 0]. *)
Definition parse_v0 (d : list byte) : M (frame t) unit :=
  o ← get_offset;
  fail_if (len d <? o + 20) "tenc v0 box too short for required fields";;
  _ ← Bytes 2;
  x ← Byte;
  modify_self (set_DefaultIsProtected x);;
  x ← Byte;
  modify_self (set_DefaultPerSampleIVSize x);;
  kid ← Bytes 16;
  modify_self (fun b => set_DefaultKID (copy (DefaultKID b) kid) b);;
  b ← get_self;
  o ← get_offset;
  if (u8 (DefaultIsProtected b) =? 1) && (u8 (DefaultPerSampleIVSize b) =? 0)
  then if o <? Size (Header b) then parse_constant_iv d else mret tt
  else mret tt.

Definition parse (d : list byte) : M (frame t) unit :=
  parse_header d;;
  set_p d 8;;
  o ← get_offset;
  fail_if (len d <? o + 4) "tenc box too short for version/flags";;
  versionAndFlags ← Uint32;
  modify_self (set_Version (byte_of_Z (Z.shiftr versionAndFlags 24)));;
  modify_self (set_Flags (Z.land versionAndFlags 16777215));;
  b ← get_self;
  if u8 (Version b) =? 0 then parse_v0 d else mret tt.

(** [func (b *TencBox) Parse(data []byte) error] *)
Definition Parse (b : t) (d : list byte) : result unit * t :=
  let '(r, st) := parse d (Frame b (Parser [] 0)) in (r, self st).
End TencBox.

(** ** SENC *)

Record SubsampleInfo : Type := {
  BytesOfClearData : Z;       (* uint16 *)
  BytesOfProtectedData : Z    (* uint32 *)
}.

Record SampleEncryptionInfo : Type := {
  IV : list byte;
  Subsamples : list SubsampleInfo
}.

Definition SubsampleInfo_zero : SubsampleInfo :=
  {| BytesOfClearData := 0; BytesOfProtectedData := 0 |}.

Definition SampleEncryptionInfo_zero : SampleEncryptionInfo :=
  {| IV := []; Subsamples := [] |}.

Definition set_IV (iv : list byte) (s : SampleEncryptionInfo) :=
  {| IV := iv; Subsamples := Subsamples s |}.
Definition set_Subsamples (l : list SubsampleInfo) (s : SampleEncryptionInfo) :=
  {| IV := IV s; Subsamples := l |}.

Module SencBox.
Record t : Type := {
  Header : BoxHeader;
  Flags : Z;                             (* uint32 *)
  Samples : list SampleEncryptionInfo
}.

Definition zero : t :=
  {| Header := BoxHeader_zero; Flags := 0; Samples := [] |}.

Definition set_Header h b :=
  {| Header := h; Flags := Flags b; Samples := Samples b |}.
Definition set_Flags f b :=
  {| Header := Header b; Flags := f; Samples := Samples b |}.
Definition set_Samples l b :=
  {| Header := Header b; Flags := Flags b; Samples := l |}.

(** [b.Samples[i] = f(b.Samples[i])] *)
Definition modify_sample (i : Z) (f : SampleEncryptionInfo -> SampleEncryptionInfo)
  : M (frame t) unit :=
  modify_self (fun b => set_Samples (alter f (Z.to_nat i) (Samples b)) b).

(** [b.Header.Parse(data)] *)
Definition parse_header (d : list byte) : M (frame t) unit :=
  fun st =>
    let '(r, h) := BoxHeader_Parse (Header (self st)) d in
    (r, Frame (set_Header h (self st)) (p st)).

(** The body of the loop over [j]. *)
Definition read_subsample (d : list byte) (i j : Z) : M (frame t) unit :=
  o ← get_offset;
  fail_if (len d <? o + 6) "senc truncated while reading subsample";;
  clear ← Uint16;
  prot ← Uint32;
  modify_sample i (fun s =>
    set_Subsamples
      (<[Z.to_nat j := {| BytesOfClearData := clear;
                          BytesOfProtectedData := prot |}]> (Subsamples s)) s).

(** The body of [if subsamplesPresent]. *)
Definition read_subsamples (d : list byte) (i : Z) : M (frame t) unit :=
  o ← get_offset;
  fail_if (len d <? o + 2) "senc truncated while reading subsample count";;
  subsampleCount ← Uint16;
  modify_sample i
    (set_Subsamples (replicate (Z.to_nat subsampleCount) SubsampleInfo_zero));;
  for_ (Z.to_nat subsampleCount) 0 (read_subsample d i).

(** The body of the loop over [i]. *)
Definition read_sample (d : list byte) (subsamplesPresent : bool) (i : Z)
  : M (frame t) unit :=
  o ← get_offset;
  fail_if (len d <? o + 8) "senc truncated while reading IV";;
  iv ← Bytes 8;
  modify_sample i (set_IV iv);;
  if subsamplesPresent then read_subsamples d i else mret tt.

Definition parse (d : list byte) : M (frame t) unit :=
  parse_header d;;
  fail_if (len d <? 16) "senc too short";;
  set_p d 8;;
  w ← Uint32;
  modify_self (set_Flags (Z.land w 16777215));;
  sampleCount ← Uint32;
  modify_self
    (set_Samples (replicate (Z.to_nat sampleCount) SampleEncryptionInfo_zero));;
  b ← get_self;
  let subsamplesPresent := negb (Z.land (Flags b) 2 =? 0) in
  for_ (Z.to_nat sampleCount) 0 (read_sample d subsamplesPresent).

(** [func (b *SencBox) Parse(data []byte) error] *)
Definition Parse (b : t) (d : list byte) : result unit * t :=
  let '(r, st) := parse d (Frame b (Parser [] 0)) in (r, self st).
End SencBox.

(** ** The sample decryptor *)

(** [cipher.Block] of Go's standard library: a block size and the
    encryption of one block, a function of the block alone once the
    cipher is keyed. *)
Record Block : Type := { BlockSize : Z; Encrypt : list byte -> list byte }.

(** The CTR stream of Go's [crypto/cipher]: the counter block starts
    at the IV and is incremented as a big-endian integer after each
    block; byte [i] of the key stream is byte [i mod BlockSize] of the
    encryption of the counter after [i / BlockSize] increments.  A
    stream remembers how many key-stream bytes it has handed out. *)
Fixpoint incr_le (l : list byte) : list byte :=
  match l with
  | [] => []
  | b :: r =>
      let b' := byte_of_Z (u8 b + 1) in
      if u8 b' =? 0 then b' :: incr_le r else b' :: r
  end.

Definition ctr_incr (c : list byte) : list byte := rev (incr_le (rev c)).

Record Stream : Type := { s_block : Block; s_iv : list byte; s_pos : nat }.

Definition keystream_byte (blk : Block) (iv : list byte) (i : nat) : byte :=
  let bs := Z.to_nat (BlockSize blk) in
  nth (i mod bs)%nat (Encrypt blk (Nat.iter (i / bs)%nat ctr_incr iv)) x00.

(** [cipher.NewCTR(block, iv)] *)
Definition NewCTR (blk : Block) (iv : list byte) : result Stream :=
  if len iv =? BlockSize blk
  then Ok {| s_block := blk; s_iv := iv; s_pos := 0 |}
  else Panic "cipher.NewCTR: IV length must equal block size".

(** [stream.XORKeyStream(chunk, chunk)]: the chunk after the call and
    the advanced stream. *)
Definition XORKeyStream (s : Stream) (chunk : list byte) : Stream * list byte :=
  ({| s_block := s_block s; s_iv := s_iv s;
      s_pos := (s_pos s + length chunk)%nat |},
   imap (fun j x => byte_xor x (keystream_byte (s_block s) (s_iv s) (s_pos s + j)))
        chunk).

(** [sample[lo:hi]] replaced in place by [chunk]. *)
Definition splice (sample : list byte) (lo hi : Z) (chunk : list byte) : list byte :=
  take (Z.to_nat lo) sample ++ chunk ++ drop (Z.to_nat hi) sample.

(** The loop [for _, subsample := range info.Subsamples]: the outcome
    and the sample buffer as the loop leaves it. *)
Fixpoint decrypt_subsamples (subs : list SubsampleInfo) (stream : Stream)
    (sampleOffset : Z) (sample : list byte) : result unit * list byte :=
  match subs with
  | [] => (Ok tt, sample)
  | subsample :: rest =>
      let sampleOffset := sampleOffset + BytesOfClearData subsample in
      if 0 <? BytesOfProtectedData subsample then
        let end_ := sampleOffset + BytesOfProtectedData subsample in
        let end_ := if len sample <? end_ then len sample else end_ in
        if (0 <=? sampleOffset) && (sampleOffset <=? end_) then
          let '(stream', chunk) :=
            XORKeyStream stream (slice sample sampleOffset end_) in
          decrypt_subsamples rest stream' end_
            (splice sample sampleOffset end_ chunk)
        else (Panic "slice bounds out of range", sample)
      else decrypt_subsamples rest stream sampleOffset sample
  end.

(** The 16-byte counter seed: [if len(iv) == 8 { paddedIV := make([]byte,
    16); copy(paddedIV, iv); iv = paddedIV }]. *)
Definition pad_iv (iv : list byte) : list byte :=
  if len iv =? 8 then copy (replicate 16 x00) iv else iv.

(** [func DecryptSample(sample []byte, info *SampleEncryptionInfo,
    block cipher.Block)]: the outcome and the sample buffer as the
    call leaves it. *)
Definition DecryptSample (sample : list byte) (info : option SampleEncryptionInfo)
    (block : Block) : result unit * list byte :=
  match info with
  | None => (Ok tt, sample)
  | Some info =>
      if len (IV info) =? 0 then (Ok tt, sample)
      else
        let iv := pad_iv (IV info) in
        match NewCTR block iv with
        | Ok stream =>
            if len (Subsamples info) =? 0 then
              (Ok tt, snd (XORKeyStream stream sample))
            else decrypt_subsamples (Subsamples info) stream 0 sample
        | Err e => (Err e, sample)
        | Panic e => (Panic e, sample)
        end
  end.

(** ** Vocabulary of the statements and concrete inputs *)

(** The fields of a buffer at a byte offset: one byte, a big-endian
    16-bit and a big-endian 32-bit unsigned integer. *)
Definition byte_at (d : list byte) (o : Z) : byte := nth 0 (slice d o (o + 1)) x00.
Definition u16_at (d : list byte) (o : Z) : Z := be16 (slice d o (o + 2)).
Definition u32_at (d : list byte) (o : Z) : Z := be32 (slice d o (o + 4)).

(** The header a successful [BoxHeader.Parse] stores. *)
Definition header_of (h : BoxHeader) (d : list byte) : BoxHeader :=
  {| Size := u32_at d 0; Type_ := copy (Type_ h) (slice d 4 8) |}.

(** Bytewise exclusive-or of two buffers. *)
Definition xor_bytes (a m : list byte) : list byte := zip_with byte_xor a m.

(** [out] agrees with [inp] at every index outside the half-open
    ranges [ranges]. *)
Definition unchanged_outside (ranges : list (Z * Z)) (inp out : list byte) : Prop :=
  forall i : nat,
    Forall (fun r => ~ (fst r <= Z.of_nat i < snd r)) ranges ->
    out !! i = inp !! i.

(** A keyed 16-byte block cipher used for concrete runs: the block
    exclusive-or a fixed pad. *)
Definition pad_block : Block :=
  {| BlockSize := 16; Encrypt := map (byte_xor xa5) |}.

Definition iv8 : list byte := [x01; x02; x03; x04; x05; x06; x07; x08].

(** The subsample pattern [{clear:10,protected:20},{clear:5,protected:65}]. *)
Definition two_subsamples : list SubsampleInfo :=
  [ {| BytesOfClearData := 10; BytesOfProtectedData := 20 |};
    {| BytesOfClearData := 5; BytesOfProtectedData := 65 |} ].

(** The key IDs laid out from offset [o]: [n] consecutive 16-byte
    runs of the buffer, in buffer order. *)
Fixpoint kids_at (d : list byte) (o : Z) (n : nat) : list (list byte) :=
  match n with
  | O => []
  | S n' => slice d o (o + 16) :: kids_at d (o + 16) n'
  end.

(** The receiver once version, flags and system ID are stored. *)
Definition pssh_fixed (b : PsshBox.t) (d : list byte) : PsshBox.t :=
  PsshBox.set_SystemID (copy (PsshBox.SystemID b) (slice d 12 28))
    (PsshBox.set_Flags (copy (PsshBox.Flags b) (drop 1 (slice d 8 12)))
      (PsshBox.set_Version (byte_at d 8)
        (PsshBox.set_Header (header_of (PsshBox.Header b) d) b))).

(** The [senc] layout: a subsample entry is a 16-bit clear length
    followed by a 32-bit protected length; a sample entry is an 8-byte
    IV, followed when the subsample flag is set by a 16-bit count and
    that many subsample entries. *)
Definition subsample_at (d : list byte) (o : Z) : SubsampleInfo :=
  {| BytesOfClearData := u16_at d o; BytesOfProtectedData := u32_at d (o + 2) |}.

Fixpoint subsamples_at (d : list byte) (o : Z) (n : nat) : list SubsampleInfo :=
  match n with
  | O => []
  | S n' => subsample_at d o :: subsamples_at d (o + 6) n'
  end.

Fixpoint samples_at (subs : bool) (d : list byte) (o : Z) (n : nat)
    : list SampleEncryptionInfo :=
  match n with
  | O => []
  | S n' =>
      {| IV := slice d o (o + 8);
         Subsamples :=
           if subs then subsamples_at d (o + 10) (Z.to_nat (u16_at d (o + 8)))
           else [] |}
      :: samples_at subs d
           (if subs then o + 10 + 6 * u16_at d (o + 8) else o + 8) n'
  end.

(** The entries [l] are laid out from offset [o] with their subsample
    tables: each entry's IV is the next 8 bytes, its subsample list is
    as long as the 16-bit count that follows, and subsample [j] is the
    clear/protected pair at its place in the buffer. *)
Inductive entries_at (d : list byte) : Z -> list SampleEncryptionInfo -> Prop :=
| entries_nil o : entries_at d o []
| entries_cons o s rest :
    IV s = slice d o (o + 8) ->
    Z.of_nat (length (Subsamples s)) = u16_at d (o + 8) ->
    (forall (j : nat) sub, Subsamples s !! j = Some sub ->
       BytesOfClearData sub = u16_at d (o + 10 + 6 * Z.of_nat j) /\
       BytesOfProtectedData sub = u32_at d (o + 10 + 6 * Z.of_nat j + 2)) ->
    entries_at d (o + 10 + 6 * u16_at d (o + 8)) rest ->
    entries_at d o (s :: rest).

(** The same without subsample tables: 8-byte IVs back to back. *)
Inductive ivs_at (d : list byte) : Z -> list SampleEncryptionInfo -> Prop :=
| ivs_nil o : ivs_at d o []
| ivs_cons o s rest :
    IV s = slice d o (o + 8) -> Subsamples s = [] ->
    ivs_at d (o + 8) rest -> ivs_at d o (s :: rest).

(** The receiver once flags are stored and the sample table allocated. *)
Definition senc_fixed (b : SencBox.t) (d : list byte) : SencBox.t :=
  SencBox.set_Samples
    (replicate (Z.to_nat (u32_at d 12)) SampleEncryptionInfo_zero)
    (SencBox.set_Flags (Z.land (u32_at d 8) 16777215)
      (SencBox.set_Header (header_of (SencBox.Header b) d) b)).

(** A [senc] box with the subsample flag set: two samples, with one
    and two subsamples. *)
Definition senc_two : list byte :=
  [x00; x00; x00; x38; x73; x65; x6e; x63; x00; x00; x00; x02;
   x00; x00; x00; x02] ++
  replicate 8 x11 ++ [x00; x01; x00; x0a; x00; x00; x00; x14] ++
  replicate 8 x22 ++ [x00; x02; x00; x01; x00; x00; x00; x02;
                      x00; x03; x00; x00; x00; x04].

(** A [senc] box with no flag set: two bare IVs. *)
Definition senc_plain : list byte :=
  [x00; x00; x00; x20; x73; x65; x6e; x63; x00; x00; x00; x00;
   x00; x00; x00; x02] ++ replicate 8 x11 ++ replicate 8 x22.

(** A computation leaves the projection [phi] of the receiver as it
    found it, whatever its outcome. *)
Definition untouched {B A X : Type} (phi : B -> X) (m : M (frame B) A) : Prop :=
  forall s, phi (self (snd (m s))) = phi (self s).

(** A computation that returns an error leaves the projection [phi]
    of the receiver as it found it. *)
Definition err_keeps {B A X : Type} (phi : B -> X) (m : M (frame B) A) : Prop :=
  forall s e s', m s = (Err e, s') -> phi (self s') = phi (self s).

(** A version-1 [pssh] box of 48 bytes declaring 0x10000001 key IDs
    and holding one. *)
Definition pssh_wrap : list byte :=
  [x00; x00; x00; x30; x70; x73; x73; x68; x01; x00; x00; x00] ++
  replicate 16 xaa ++ [x10; x00; x00; x01] ++ replicate 16 x11.

(** A version-1 [pssh] box cut after its system ID (28 bytes). *)
Definition pssh_cut : list byte :=
  [x00; x00; x00; x30; x70; x73; x73; x68; x01; x00; x00; x00] ++
  replicate 16 xaa.

(** A well-formed version-1 [pssh] box: two key IDs, two data bytes. *)
Definition pssh_two : list byte :=
  [x00; x00; x00; x46; x70; x73; x73; x68; x01; x00; x00; x00] ++
  replicate 16 xaa ++ [x00; x00; x00; x02] ++ replicate 16 x01 ++
  replicate 16 x02 ++ [x00; x00; x00; x02; x11; x22].

(** A version-0 [pssh] box whose bytes after the system ID would read
    as a key-ID count of 2 under version 1. *)
Definition pssh_v0 : list byte :=
  [x00; x00; x00; x22; x70; x73; x73; x68; x00; x00; x00; x00] ++
  replicate 16 xaa ++ [x00; x00; x00; x02; x11; x22].

(** A [tenc] box of exactly 32 bytes: version 0, isProtected 1,
    perSampleIVSize 0, and no constant-IV tail. *)
Definition tenc_min : list byte :=
  [x00; x00; x00; x20; x74; x65; x6e; x63; x00; x00; x00; x00;
   x00; x00; x01; x00] ++ replicate 16 xbb.

(** The same box declared 37 bytes long, with a 4-byte constant IV. *)
Definition tenc_tail : list byte :=
  [x00; x00; x00; x25; x74; x65; x6e; x63; x00; x00; x00; x00;
   x00; x00; x01; x00] ++ replicate 16 xbb ++ [x04; x01; x02; x03; x04].

(** A [tenc] box of version 1, cut after its version/flags word. *)
Definition tenc_v1 : list byte :=
  [x00; x00; x00; x20; x74; x65; x6e; x63; x01; x00; x00; x07].

(** The declared subsample layout stays inside a sample of [n] bytes
    from running offset [off]: lengths are not negative, every
    protected range starts at or before the end of the sample, and only
    the last one may run past it. *)
Fixpoint starts_within (subs : list SubsampleInfo) (off n : Z) : Prop :=
  match subs with
  | [] => True
  | s :: rest =>
      0 <= BytesOfClearData s /\ 0 <= BytesOfProtectedData s /\
      off + BytesOfClearData s <= n /\
      starts_within rest (off + BytesOfClearData s + BytesOfProtectedData s) n
  end.

(** The key-stream position that the subsample layout assigns to byte
    [i] of the sample: [None] for a clear byte, [Some j] for the
    [j]-th protected byte counted across all protected ranges.  [off]
    is the running offset and [used] the key-stream bytes consumed so
    far. *)
Fixpoint mask_index (subs : list SubsampleInfo) (off used i : Z) : option Z :=
  match subs with
  | [] => None
  | s :: rest =>
      let start := off + BytesOfClearData s in
      let stop := start + BytesOfProtectedData s in
      if (start <=? i) && (i <? stop) then Some (used + (i - start))
      else mask_index rest stop (used + BytesOfProtectedData s) i
  end.

(** A layout that leaves the sample of [n] bytes after 3 clear bytes
    and 4 protected ones, then declares 2 clear and 9 protected bytes
    of which only 3 exist. *)
Definition ragged_subsamples : list SubsampleInfo :=
  [ {| BytesOfClearData := 3; BytesOfProtectedData := 4 |};
    {| BytesOfClearData := 2; BytesOfProtectedData := 9 |} ].

(** The version-0 [tenc] payload asks for the constant-IV tail:
    isProtected is 1, perSampleIVSize is 0 and the declared box size
    reaches past the 32 fixed bytes. *)
Definition tenc_wants_tail (d : list byte) : bool :=
  (u8 (byte_at d 14) =? 1) && (u8 (byte_at d 15) =? 0) && (32 <? u32_at d 0).

(** The buffers [TencBox.Parse] accepts: 12 bytes for any other
    version; for version 0 the 32 fixed bytes and, when the tail is
    asked for, its size byte and that many IV bytes. *)
Definition tenc_accepts (d : list byte) : Prop :=
  12 <= len d /\
  (byte_at d 8 = x00 ->
   32 <= len d /\
   (tenc_wants_tail d = true -> 33 + u8 (byte_at d 32) <= len d)).

(** A version-0 [tenc] box with per-sample IVs of 8 bytes whose
    declared size (40) reaches past the fixed part. *)
Definition tenc_per_sample : list byte :=
  [x00; x00; x00; x28; x74; x65; x6e; x63; x00; x00; x00; x00;
   x00; x00; x01; x08] ++ replicate 16 xbb ++ replicate 8 xcc.

(** Where the data-size field of a [pssh] box sits: right after the
    system ID for version 0, after the key-ID count and array
    otherwise. *)
Definition pssh_data_offset (d : list byte) : Z :=
  if u8 (byte_at d 8) =? 0 then 28 else 32 + 16 * u32_at d 28.

(** The buffers [PsshBox.Parse] accepts: the 28 fixed bytes, then (for
    version 1 and later) the key-ID count and array, the data-size
    field and the declared data bytes. *)
Definition pssh_accepts (d : list byte) : Prop :=
  28 <= len d /\
  pssh_data_offset d + 4 <= len d /\
  pssh_data_offset d + 4 + u32_at d (pssh_data_offset d) <= len d.

(** The [senc] sample table of [n] entries laid out from offset [o]
    lies inside the buffer: each 8-byte IV and, with subsample tables,
    each 16-bit count and its 6-byte entries. *)
Fixpoint senc_fits (subs : bool) (d : list byte) (o : Z) (n : nat) : Prop :=
  match n with
  | O => True
  | S n' =>
      o + 8 <= len d /\
      (if subs then o + 10 <= len d /\ o + 10 + 6 * u16_at d (o + 8) <= len d
       else True) /\
      senc_fits subs d (if subs then o + 10 + 6 * u16_at d (o + 8) else o + 8) n'
  end.

(** The three truncation errors of [SencBox.Parse]'s sample loop. *)
Definition senc_truncation (e : string) : Prop :=
  e = "senc truncated while reading IV"%string \/
  e = "senc truncated while reading subsample count"%string \/
  e = "senc truncated while reading subsample"%string.


(** * Properties *)

(** ** Bytes *)

Lemma u8_range (b : byte) : 0 <= u8 b < 256.
Proof. unfold u8. pose proof (Byte.to_N_bounded b). lia. Qed.

Lemma byte_of_Z_u8 (b : byte) : byte_of_Z (u8 b) = b.
Proof.
  unfold byte_of_Z. rewrite Z.mod_small by apply u8_range.
  unfold u8. by rewrite N2Z.id, Byte.of_to_N.
Qed.

Lemma to_bits_byte_xor (a b : byte) :
  Byte.to_bits (byte_xor a b) =
  let '(a0, (a1, (a2, (a3, (a4, (a5, (a6, a7))))))) := Byte.to_bits a in
  let '(b0, (b1, (b2, (b3, (b4, (b5, (b6, b7))))))) := Byte.to_bits b in
  (xorb a0 b0, (xorb a1 b1, (xorb a2 b2, (xorb a3 b3,
  (xorb a4 b4, (xorb a5 b5, (xorb a6 b6, xorb a7 b7))))))).
Proof.
  unfold byte_xor.
  destruct (Byte.to_bits a) as (? & ? & ? & ? & ? & ? & ? & ?).
  destruct (Byte.to_bits b) as (? & ? & ? & ? & ? & ? & ? & ?).
  apply Byte.to_bits_of_bits.
Qed.

Lemma to_bits_inj (a b : byte) : Byte.to_bits a = Byte.to_bits b -> a = b.
Proof.
  intros H. rewrite <- (Byte.of_bits_to_bits a), <- (Byte.of_bits_to_bits b).
  by rewrite H.
Qed.

Ltac bits_cases :=
  repeat match goal with
  | |- context [Byte.to_bits ?x] =>
      destruct (Byte.to_bits x) as (? & ? & ? & ? & ? & ? & ? & ?)
  end;
  repeat apply (f_equal2 pair).

Lemma byte_xor_comm (a b : byte) : byte_xor a b = byte_xor b a.
Proof.
  apply to_bits_inj. rewrite !to_bits_byte_xor.
  bits_cases; apply xorb_comm.
Qed.

Lemma byte_xor_assoc (a b c : byte) :
  byte_xor (byte_xor a b) c = byte_xor a (byte_xor b c).
Proof.
  apply to_bits_inj. rewrite !to_bits_byte_xor.
  bits_cases; apply xorb_assoc.
Qed.

Lemma byte_xor_cancel (a k : byte) : byte_xor (byte_xor a k) k = a.
Proof.
  apply to_bits_inj. rewrite !to_bits_byte_xor.
  bits_cases; by rewrite xorb_assoc, xorb_nilpotent, xorb_false_r.
Qed.

Lemma byte_xor_zero_r (a : byte) : byte_xor a x00 = a.
Proof.
  apply to_bits_inj. rewrite to_bits_byte_xor. cbn [Byte.to_bits].
  destruct (Byte.to_bits a) as (? & ? & ? & ? & ? & ? & ? & ?).
  by rewrite !xorb_false_r.
Qed.

(** ** Slices *)

Section Slices.
Context {A : Type}.
Implicit Types l c : list A.

Lemma length_slice l lo hi :
  0 <= lo -> lo <= hi -> hi <= len l ->
  length (slice l lo hi) = Z.to_nat (hi - lo).
Proof.
  unfold slice, len. intros. rewrite length_take, length_drop. lia.
Qed.

Lemma lookup_slice l lo hi (i : nat) :
  slice l lo hi !! i =
  if decide (i < Z.to_nat (hi - lo))%nat then l !! (Z.to_nat lo + i)%nat else None.
Proof.
  unfold slice. case_decide.
  - by rewrite lookup_take_lt, lookup_drop.
  - apply lookup_take_ge. lia.
Qed.

End Slices.

Section Splice.
Implicit Types l c : list byte.

Lemma length_splice l c lo hi :
  0 <= lo -> lo <= hi -> hi <= len l -> length c = Z.to_nat (hi - lo) ->
  length (splice l lo hi c) = length l.
Proof.
  unfold splice, len. intros.
  rewrite !length_app, length_take, length_drop. lia.
Qed.

Lemma lookup_splice l c lo hi (i : nat) :
  0 <= lo -> lo <= hi -> hi <= len l -> length c = Z.to_nat (hi - lo) ->
  splice l lo hi c !! i =
  if decide (Z.to_nat lo <= i < Z.to_nat hi)%nat
  then c !! (i - Z.to_nat lo)%nat else l !! i.
Proof.
  unfold splice, len. intros Hlo Hle Hhi Hc.
  assert (length (take (Z.to_nat lo) l) = Z.to_nat lo) as Ht
    by (rewrite length_take; lia).
  destruct (decide (i < Z.to_nat lo)%nat) as [Hi|Hi].
  - rewrite lookup_app_l by lia. rewrite lookup_take_lt by lia.
    case_decide; [lia | done].
  - rewrite lookup_app_r by lia. rewrite Ht.
    destruct (decide (i < Z.to_nat hi)%nat) as [Hi'|Hi'].
    + rewrite lookup_app_l by lia. case_decide; [done | lia].
    + rewrite lookup_app_r by lia. rewrite lookup_drop, Hc.
      case_decide; [lia|]. f_equal. lia.
Qed.
End Splice.

(** ** The decryptor is an exclusive-or with a mask *)

Lemma length_xor_bytes a m :
  length a = length m -> length (xor_bytes a m) = length m.
Proof. intros H. unfold xor_bytes. rewrite length_zip_with. lia. Qed.

Lemma lookup_xor_bytes a m (i : nat) :
  xor_bytes a m !! i =
  match a !! i, m !! i with
  | Some x, Some y => Some (byte_xor x y)
  | _, _ => None
  end.
Proof.
  unfold xor_bytes. rewrite lookup_zip_with.
  destruct (a !! i), (m !! i); done.
Qed.

Lemma xor_bytes_comm a m : xor_bytes a m = xor_bytes m a.
Proof.
  apply list_eq. intros i. rewrite !lookup_xor_bytes.
  destruct (a !! i), (m !! i); try done. by rewrite byte_xor_comm.
Qed.

Lemma xor_bytes_cancel a m :
  length a = length m -> xor_bytes m (xor_bytes a m) = a.
Proof.
  intros Hlen. apply list_eq. intros i. rewrite !lookup_xor_bytes.
  destruct (a !! i) as [x|] eqn:Ha, (m !! i) as [y|] eqn:Hm; try done.
  - by rewrite byte_xor_comm, byte_xor_cancel.
  - apply lookup_lt_Some in Ha. apply lookup_ge_None in Hm. lia.
Qed.

Lemma XORKeyStream_fst s c c' :
  length c = length c' -> fst (XORKeyStream s c) = fst (XORKeyStream s c').
Proof. intros H. unfold XORKeyStream. cbn. by rewrite H. Qed.

Lemma length_XORKeyStream s c : length (snd (XORKeyStream s c)) = length c.
Proof. unfold XORKeyStream. cbn. apply length_imap. Qed.

Lemma lookup_XORKeyStream s c (i : nat) :
  snd (XORKeyStream s c) !! i =
  (fun x => byte_xor x (keystream_byte (s_block s) (s_iv s) (s_pos s + i)))
    <$> c !! i.
Proof. unfold XORKeyStream. cbn. by rewrite list_lookup_imap. Qed.

Lemma XORKeyStream_xor s a m :
  length a = length m ->
  snd (XORKeyStream s (xor_bytes a m)) = xor_bytes a (snd (XORKeyStream s m)).
Proof.
  intros Hlen. apply list_eq. intros i.
  rewrite lookup_XORKeyStream, !lookup_xor_bytes, lookup_XORKeyStream.
  destruct (a !! i), (m !! i); try done. cbn. by rewrite byte_xor_assoc.
Qed.

Lemma decrypt_subsamples_length subs : forall stream off sample,
  length (snd (decrypt_subsamples subs stream off sample)) = length sample.
Proof.
  induction subs as [|sub rest IH]; intros stream off sample; [done|].
  cbn [decrypt_subsamples].
  destruct (0 <? BytesOfProtectedData sub); [|apply IH].
  set (lo := off + BytesOfClearData sub).
  set (hi := if len sample <? lo + BytesOfProtectedData sub
             then len sample else lo + BytesOfProtectedData sub).
  destruct ((0 <=? lo) && (lo <=? hi)) eqn:Hc; [|done].
  apply andb_true_iff in Hc as [H0 H1].
  apply Z.leb_le in H0. apply Z.leb_le in H1.
  assert (hi <= len sample) by (subst hi; destruct (Z.ltb_spec (len sample) (lo + BytesOfProtectedData sub)); lia).
  destruct (XORKeyStream stream (slice sample lo hi)) as [st' chunk] eqn:Hx.
  rewrite IH. apply length_splice; try done.
  change chunk with (snd (st', chunk)). rewrite <- Hx.
  rewrite length_XORKeyStream. by apply length_slice.
Qed.

Lemma decrypt_subsamples_xor subs : forall stream off a m,
  length a = length m ->
  decrypt_subsamples subs stream off (xor_bytes a m) =
  (fst (decrypt_subsamples subs stream off m),
   xor_bytes a (snd (decrypt_subsamples subs stream off m))).
Proof.
  induction subs as [|sub rest IH]; intros stream off a m Hlen; [done|].
  cbn [decrypt_subsamples].
  destruct (0 <? BytesOfProtectedData sub); [|by apply IH].
  assert (len (xor_bytes a m) = len m) as ->
    by (unfold len; by rewrite length_xor_bytes).
  set (lo := off + BytesOfClearData sub).
  set (hi := if len m <? lo + BytesOfProtectedData sub
             then len m else lo + BytesOfProtectedData sub).
  destruct ((0 <=? lo) && (lo <=? hi)) eqn:Hc; [|done].
  apply andb_true_iff in Hc as [H0 H1].
  apply Z.leb_le in H0. apply Z.leb_le in H1.
  assert (hi <= len m) by (subst hi; destruct (Z.ltb_spec (len m) (lo + BytesOfProtectedData sub)); lia).
  assert (len (xor_bytes a m) = len m) as Hlb
    by (unfold len; by rewrite length_xor_bytes).
  destruct (XORKeyStream stream (slice (xor_bytes a m) lo hi)) as [st1 c1] eqn:Hx1.
  destruct (XORKeyStream stream (slice m lo hi)) as [st2 c2] eqn:Hx2.
  assert (length (slice (xor_bytes a m) lo hi) = length (slice m lo hi)) as Hsl
    by (rewrite !length_slice; lia).
  assert (st1 = st2) as ->.
  { change st1 with (fst (st1, c1)). change st2 with (fst (st2, c2)).
    rewrite <- Hx1, <- Hx2. by apply XORKeyStream_fst. }
  assert (length c2 = Z.to_nat (hi - lo)) as Hc2.
  { change c2 with (snd (st2, c2)). rewrite <- Hx2, length_XORKeyStream.
    by apply length_slice. }
  assert (length c1 = Z.to_nat (hi - lo)) as Hc1.
  { change c1 with (snd (st2, c1)). rewrite <- Hx1, length_XORKeyStream.
    apply length_slice; lia. }
  assert (splice (xor_bytes a m) lo hi c1 = xor_bytes a (splice m lo hi c2)) as ->.
  { apply list_eq. intros i.
    rewrite (lookup_xor_bytes a (splice m lo hi c2)).
    rewrite !lookup_splice by (done || lia).
    case_decide as Hi; [|by rewrite lookup_xor_bytes].
    change c1 with (snd (st2, c1)). change c2 with (snd (st2, c2)).
    rewrite <- Hx1, <- Hx2, !lookup_XORKeyStream, !lookup_slice.
    case_decide; [|lia].
    replace (Z.to_nat lo + (i - Z.to_nat lo))%nat with i by lia.
    rewrite lookup_xor_bytes.
    destruct (a !! i), (m !! i); try done. cbn. by rewrite byte_xor_assoc. }
  apply IH. rewrite length_splice; done.
Qed.

(** ** Sample decryptor: claims C1, C2, C3 *)

(** The part of C2 that holds: without info, or with an empty IV, the
    call returns at once and the sample is as it was. *)
Lemma DecryptSample_noop sample info block :
  info = None \/ (exists i, info = Some i /\ IV i = []) ->
  DecryptSample sample info block = (Ok tt, sample).
Proof.
  intros [->|(i & -> & Hiv)]; [done|].
  unfold DecryptSample. by rewrite Hiv.
Qed.

(** C3. [DecryptSample] is self-inverse on the sample buffer: for every
    buffer, every [SampleEncryptionInfo] (or none) and every block
    cipher, running it a second time on the buffer left by the first
    run, with the same info and cipher, ends the same way as the first
    run and leaves exactly the original buffer. *)
Theorem DecryptSample_self_inverse sample info block :
  DecryptSample (snd (DecryptSample sample info block)) info block =
  (fst (DecryptSample sample info block), sample).
Proof.
  unfold DecryptSample.
  destruct info as [info|]; [|done].
  destruct (len (IV info) =? 0); [done|].
  destruct (NewCTR block (pad_iv (IV info))) as [stream|e|e]; [|done|done].
  destruct (len (Subsamples info) =? 0).
  - cbn [fst snd]. f_equal. apply list_eq. intros i.
    rewrite !lookup_XORKeyStream.
    destruct (sample !! i); [|done]. cbn. by rewrite byte_xor_cancel.
  - set (D := decrypt_subsamples (Subsamples info) stream 0).
    set (zeros := replicate (length sample) x00).
    assert (xor_bytes sample zeros = sample) as Hz.
    { apply list_eq. intros i. rewrite lookup_xor_bytes. subst zeros.
      destruct (sample !! i) eqn:Hs; [|done].
      rewrite lookup_replicate_2 by (by apply lookup_lt_Some in Hs).
      by rewrite byte_xor_zero_r. }
    assert (length sample = length zeros) as Hlz
      by (subst zeros; by rewrite length_replicate).
    assert (D sample = (fst (D zeros), xor_bytes sample (snd (D zeros)))) as H1.
    { rewrite <- Hz at 1. by apply decrypt_subsamples_xor. }
    assert (length (snd (D zeros)) = length sample) as Hlm.
    { subst D. rewrite decrypt_subsamples_length. lia. }
    rewrite H1 at 1. cbn [snd]. rewrite xor_bytes_comm.
    subst D. rewrite decrypt_subsamples_xor by lia.
    f_equal. fold (decrypt_subsamples (Subsamples info) stream 0) in *.
    rewrite H1. cbn [snd]. by apply xor_bytes_cancel.
Qed.

Lemma NewCTR_pad_iv block iv :
  BlockSize block = 16 -> len iv = 8 \/ len iv = 16 ->
  NewCTR block (pad_iv iv) =
  Ok {| s_block := block; s_iv := pad_iv iv; s_pos := 0 |}.
Proof.
  intros Hbs Hiv. unfold NewCTR.
  assert (len (pad_iv iv) = 16) as ->.
  { unfold pad_iv, copy, len in *. destruct Hiv as [H|H].
    - rewrite H. cbn [Z.eqb Pos.eqb].
      rewrite length_app, length_take, length_drop, length_replicate. lia.
    - rewrite H. by cbn. }
  by rewrite Hbs.
Qed.

Lemma decrypt_subsamples_protected sub rest stream off sample lo hi :
  lo = off + BytesOfClearData sub ->
  0 < BytesOfProtectedData sub ->
  hi = Z.min (lo + BytesOfProtectedData sub) (len sample) ->
  0 <= lo <= hi ->
  decrypt_subsamples (sub :: rest) stream off sample =
  decrypt_subsamples rest (fst (XORKeyStream stream (slice sample lo hi))) hi
    (splice sample lo hi (snd (XORKeyStream stream (slice sample lo hi)))).
Proof.
  intros Hlo Hprot Hhi Hrange. cbn [decrypt_subsamples].
  assert ((0 <? BytesOfProtectedData sub) = true) as -> by (apply Z.ltb_lt; lia).
  rewrite <- Hlo.
  assert ((if len sample <? lo + BytesOfProtectedData sub then len sample
           else lo + BytesOfProtectedData sub) = hi) as ->.
  { destruct (Z.ltb_spec (len sample) (lo + BytesOfProtectedData sub)); lia. }
  assert ((0 <=? lo) && (lo <=? hi) = true) as ->.
  { apply andb_true_iff. split; apply Z.leb_le; lia. }
  by destruct (XORKeyStream stream (slice sample lo hi)).
Qed.

(** C1, as the code has it.  On a sample of 100 bytes with the
    subsamples [{clear:10,protected:20},{clear:5,protected:65}], an IV
    of 8 or 16 bytes and a 16-byte block cipher, [DecryptSample]
    returns normally; the buffer keeps its length; every byte outside
    [10,30) and [35,100) equals the input; byte [i] of [10,30) is the
    input byte exclusive-or key-stream byte [i - 10], and byte [i] of
    [35,100) is the input byte exclusive-or key-stream byte [i - 15]
    (the key stream runs on across the two ranges).  The second range
    ends at the end of the sample, so nothing is clamped. *)
Theorem DecryptSample_two_subsamples sample iv block :
  length sample = 100%nat ->
  BlockSize block = 16 ->
  len iv = 8 \/ len iv = 16 ->
  exists out,
    DecryptSample sample (Some {| IV := iv; Subsamples := two_subsamples |}) block
      = (Ok tt, out) /\
    length out = 100%nat /\
    unchanged_outside [(10, 30); (35, 100)] sample out /\
    (forall i x, (10 <= i < 30)%nat -> sample !! i = Some x ->
       out !! i = Some (byte_xor x (keystream_byte block (pad_iv iv) (i - 10)))) /\
    (forall i x, (35 <= i < 100)%nat -> sample !! i = Some x ->
       out !! i = Some (byte_xor x (keystream_byte block (pad_iv iv) (i - 15)))).
Proof.
  intros Hlen Hbs Hiv.
  assert (len sample = 100) as HL by (unfold len; lia).
  unfold DecryptSample. cbn [IV Subsamples].
  assert ((len iv =? 0) = false) as -> by (apply Z.eqb_neq; lia).
  rewrite NewCTR_pad_iv by done.
  change (len two_subsamples =? 0) with false. cbv iota.
  set (st := {| s_block := block; s_iv := pad_iv iv; s_pos := 0 |}).
  unfold two_subsamples.
  rewrite (decrypt_subsamples_protected _ _ _ _ _ 10 30)
    by (cbn [BytesOfClearData BytesOfProtectedData]; lia).
  set (c1 := snd (XORKeyStream st (slice sample 10 30))).
  assert (length c1 = 20%nat) as Hc1.
  { subst c1. rewrite length_XORKeyStream, length_slice; lia. }
  assert (fst (XORKeyStream st (slice sample 10 30)) =
          {| s_block := block; s_iv := pad_iv iv; s_pos := 20 |}) as ->.
  { unfold XORKeyStream. cbn [fst st s_block s_iv s_pos].
    rewrite length_slice by lia. done. }
  set (st1 := {| s_block := block; s_iv := pad_iv iv; s_pos := 20 |}).
  set (s1 := splice sample 10 30 c1).
  assert (length s1 = 100%nat) as Hl1
    by (subst s1; rewrite length_splice; lia).
  assert (len s1 = 100) as HL1 by (unfold len; lia).
  rewrite (decrypt_subsamples_protected _ _ _ _ _ 35 100)
    by (cbn [BytesOfClearData BytesOfProtectedData]; lia).
  set (c2 := snd (XORKeyStream st1 (slice s1 35 100))).
  assert (length c2 = 65%nat) as Hc2.
  { subst c2. rewrite length_XORKeyStream, length_slice; lia. }
  cbn [decrypt_subsamples].
  assert (forall i : nat, (10 <= i < 30)%nat ->
            s1 !! i = (fun x => byte_xor x (keystream_byte block (pad_iv iv) (i - 10)))
                        <$> sample !! i) as Hs1in.
  { intros i Hi. subst s1. rewrite lookup_splice by lia.
    case_decide; [|lia].
    subst c1. rewrite lookup_XORKeyStream, lookup_slice. case_decide; [|lia].
    replace (Z.to_nat 10 + (i - Z.to_nat 10))%nat with i by lia.
    cbn [st s_block s_iv s_pos]. do 3 f_equal. }
  assert (forall i : nat, ~ (10 <= i < 30)%nat -> s1 !! i = sample !! i) as Hs1out.
  { intros i Hi. subst s1. rewrite lookup_splice by lia.
    case_decide; [lia | done]. }
  assert (forall i : nat, (35 <= i < 100)%nat ->
            splice s1 35 100 c2 !! i =
            (fun x => byte_xor x (keystream_byte block (pad_iv iv) (i - 15)))
              <$> sample !! i) as Hin2.
  { intros i Hi. rewrite lookup_splice by lia.
    case_decide; [|lia].
    subst c2. rewrite lookup_XORKeyStream, lookup_slice. case_decide; [|lia].
    replace (Z.to_nat 35 + (i - Z.to_nat 35))%nat with i by lia.
    rewrite Hs1out by lia. cbn [st1 s_block s_iv s_pos].
    replace (20 + (i - Z.to_nat 35))%nat with (i - 15)%nat by lia. done. }
  assert (forall i : nat, ~ (35 <= i < 100)%nat ->
            splice s1 35 100 c2 !! i = s1 !! i) as Hout2.
  { intros i Hi. rewrite lookup_splice by lia.
    case_decide; [lia | done]. }
  eexists. split; [reflexivity|]. split; [|split; [|split]].
  - rewrite length_splice; lia.
  - intros i Hout.
    apply Forall_cons in Hout as [Ha Hout].
    apply Forall_cons in Hout as [Hb _]. cbn [fst snd] in Ha, Hb.
    rewrite Hout2 by lia. apply Hs1out. lia.
  - intros i x Hi Hx. rewrite Hout2 by lia. rewrite Hs1in by lia.
    by rewrite Hx.
  - intros i x Hi Hx. rewrite Hin2 by lia. by rewrite Hx.
Qed.

Lemma DecryptSample_two_subsamples_witness :
  exists out,
    DecryptSample (replicate 100 x00)
      (Some {| IV := iv8; Subsamples := two_subsamples |}) pad_block
      = (Ok tt, out) /\
    length out = 100%nat /\
    unchanged_outside [(10, 30); (35, 100)] (replicate 100 x00) out /\
    (forall i x, (10 <= i < 30)%nat -> replicate 100 x00 !! i = Some x ->
       out !! i = Some (byte_xor x (keystream_byte pad_block (pad_iv iv8) (i - 10)))) /\
    (forall i x, (35 <= i < 100)%nat -> replicate 100 x00 !! i = Some x ->
       out !! i = Some (byte_xor x (keystream_byte pad_block (pad_iv iv8) (i - 15)))).
Proof.
  apply (DecryptSample_two_subsamples (replicate 100 x00) iv8 pad_block).
  - reflexivity.
  - reflexivity.
  - left. reflexivity.
Defined.

(** C1 as claimed fails: on the all-zero sample of 100 bytes the byte
    at index 35, which lies outside [10,30) and [45,100), is changed. *)
Lemma DecryptSample_two_subsamples_counterexample :
  ~ unchanged_outside [(10, 30); (45, 100)] (replicate 100 x00)
      (snd (DecryptSample (replicate 100 x00)
              (Some {| IV := iv8; Subsamples := two_subsamples |}) pad_block)).
Proof.
  intros H. specialize (H 35%nat).
  assert (Forall (fun r : Z * Z => ~ (fst r <= Z.of_nat 35 < snd r))
                 [(10, 30); (45, 100)]) as HF.
  { repeat constructor; cbn; lia. }
  specialize (H HF). vm_compute in H. discriminate H.
Qed.

(** C2 at a failing input: a 5-byte sample whose only subsample
    declares 10 clear bytes and then 20 protected bytes.  The protected
    end is clamped to 5, the start 10 is not, and the slice expression
    [sample[10:5]] panics. *)
Theorem DecryptSample_clear_overrun_panics :
  DecryptSample (replicate 5 x00)
    (Some {| IV := iv8;
             Subsamples := [ {| BytesOfClearData := 10;
                                BytesOfProtectedData := 20 |} ] |})
    pad_block
  = (Panic "slice bounds out of range", replicate 5 x00).
Proof. vm_compute. reflexivity. Qed.

(** A second way to the same defect class: an IV that is neither empty,
    8 bytes nor a whole block makes [cipher.NewCTR] panic. *)
Lemma DecryptSample_short_iv_panics :
  DecryptSample (replicate 5 x00) (Some {| IV := [x01]; Subsamples := [] |})
    pad_block
  = (Panic "cipher.NewCTR: IV length must equal block size", replicate 5 x00).
Proof. vm_compute. reflexivity. Qed.

(** ** Running the cursor *)

Lemma bind_run {S A B : Type} (m : M S A) (f : A -> M S B) (s : S) :
  (m ≫= f) s =
  match m s with
  | (Ok a, s') => f a s'
  | (Err e, s') => (Err e, s')
  | (Panic e, s') => (Panic e, s')
  end.
Proof. reflexivity. Qed.

Section CursorFacts.
Context {B : Type}.
Implicit Types (b : B) (d : list byte) (o n : Z).

Lemma Bytes_ok b d o n :
  0 <= n -> o + n <= len d ->
  Bytes n (Frame b (Parser d o)) =
  (Ok (slice d o (o + n)), Frame b (Parser d (o + n))).
Proof.
  intros Hn Hle. unfold Bytes. cbn [p data offset self].
  assert ((0 <=? n) && (o + n <=? len d) = true) as ->; [|done].
  apply andb_true_iff. split; by apply Z.leb_le.
Qed.

Lemma Bytes_panic b d o n :
  len d < o + n ->
  Bytes n (Frame b (Parser d o)) =
  (Panic "slice bounds out of range", Frame b (Parser d o)).
Proof.
  intros Hlt. unfold Bytes. cbn [p data offset self].
  assert ((0 <=? n) && (o + n <=? len d) = false) as ->; [|done].
  apply andb_false_iff. right. apply Z.leb_gt. lia.
Qed.

Lemma Byte_ok b d o :
  o + 1 <= len d ->
  Byte (Frame b (Parser d o)) = (Ok (byte_at d o), Frame b (Parser d (o + 1))).
Proof. intros. unfold Byte. rewrite bind_run, Bytes_ok by lia. done. Qed.

Lemma Uint16_ok b d o :
  o + 2 <= len d ->
  Uint16 (Frame b (Parser d o)) = (Ok (u16_at d o), Frame b (Parser d (o + 2))).
Proof. intros. unfold Uint16. rewrite bind_run, Bytes_ok by lia. done. Qed.

Lemma Uint32_ok b d o :
  o + 4 <= len d ->
  Uint32 (Frame b (Parser d o)) = (Ok (u32_at d o), Frame b (Parser d (o + 4))).
Proof. intros. unfold Uint32. rewrite bind_run, Bytes_ok by lia. done. Qed.
End CursorFacts.

Ltac ltb_decide :=
  match goal with
  | |- context [?a <? ?b] =>
      first
        [ replace (a <? b) with false by (symmetry; apply Z.ltb_ge; lia)
        | replace (a <? b) with true by (symmetry; apply Z.ltb_lt; lia) ]
  end.

Ltac zfold :=
  match goal with
  | |- context [Z.pos ?a + Z.pos ?b] =>
      is_ground a; is_ground b;
      let r := eval compute in (Z.pos a + Z.pos b) in
      change (Z.pos a + Z.pos b) with r
  end.

Ltac mstep :=
  first
    [ zfold
    | rewrite bind_run
    | rewrite Bytes_ok by lia
    | rewrite Byte_ok by lia
    | rewrite Uint16_ok by lia
    | rewrite Uint32_ok by lia
    | progress cbn [fail_if throw mret M_ret get_offset get_self modify_self
                    set_p self p offset data Z.add Pos.add Pos.succ Pos.add_carry]
    | ltb_decide ].

Lemma u8_zero_inv (b : byte) : u8 b = 0 -> b = x00.
Proof. intros H. rewrite <- (byte_of_Z_u8 b), H. reflexivity. Qed.

Lemma slice_4 (d : list byte) (o : Z) :
  0 <= o -> o + 4 <= len d ->
  slice d o (o + 4) =
  [byte_at d o; byte_at d (o + 1); byte_at d (o + 2); byte_at d (o + 3)].
Proof.
  intros Ho Hle. apply list_eq. intros i.
  rewrite lookup_slice.
  assert (forall k : nat, (k < 4)%nat ->
            Some (byte_at d (o + Z.of_nat k)) = d !! (Z.to_nat o + k)%nat) as Hb.
  { intros k Hk. unfold byte_at.
    destruct (slice d (o + Z.of_nat k) (o + Z.of_nat k + 1)) as [|x l] eqn:Hs.
    - apply (f_equal length) in Hs. rewrite length_slice in Hs by lia.
      cbn in Hs. lia.
    - assert (slice d (o + Z.of_nat k) (o + Z.of_nat k + 1) !! 0%nat = Some x) as Hx
        by (by rewrite Hs).
      rewrite lookup_slice in Hx. case_decide; [|lia].
      cbn [nth]. rewrite <- Hx. f_equal. lia. }
  case_decide as Hi.
  - replace (o + 4 - o) with 4 in Hi by lia.
    destruct i as [|[|[|[|i]]]]; cbn [lookup list_lookup].
    + rewrite <- (Hb 0%nat) by lia. do 2 f_equal. lia.
    + by rewrite <- (Hb 1%nat) by lia.
    + by rewrite <- (Hb 2%nat) by lia.
    + by rewrite <- (Hb 3%nat) by lia.
    + change (Z.to_nat 4) with 4%nat in Hi. lia.
  - replace (o + 4 - o) with 4 in Hi by lia.
    change (Z.to_nat 4) with 4%nat in Hi.
    destruct i as [|[|[|[|i]]]]; try lia. done.
Qed.

Lemma u32_at_range (d : list byte) (o : Z) : 0 <= u32_at d o < 4294967296.
Proof.
  unfold u32_at, be32.
  destruct (slice d o (o + 4)) as [|b0 [|b1 [|b2 [|b3 [|? ?]]]]]; try lia.
  pose proof (u8_range b0). pose proof (u8_range b1).
  pose proof (u8_range b2). pose proof (u8_range b3). lia.
Qed.

Lemma u16_at_range (d : list byte) (o : Z) : 0 <= u16_at d o < 65536.
Proof.
  unfold u16_at, be16.
  destruct (slice d o (o + 2)) as [|b0 [|b1 [|? ?]]]; try lia.
  pose proof (u8_range b0). pose proof (u8_range b1). lia.
Qed.

Lemma version_byte (d : list byte) (o : Z) :
  0 <= o -> o + 4 <= len d ->
  byte_of_Z (Z.shiftr (u32_at d o) 24) = byte_at d o.
Proof.
  intros Ho Hle. unfold u32_at. rewrite slice_4 by done. unfold be32.
  rewrite Z.shiftr_div_pow2 by lia. change (2 ^ 24) with 16777216.
  pose proof (u8_range (byte_at d o)). pose proof (u8_range (byte_at d (o + 1))).
  pose proof (u8_range (byte_at d (o + 2))). pose proof (u8_range (byte_at d (o + 3))).
  replace ((u8 (byte_at d o) * 16777216 + u8 (byte_at d (o + 1)) * 65536 +
            u8 (byte_at d (o + 2)) * 256 + u8 (byte_at d (o + 3))) / 16777216)
    with (u8 (byte_at d o)).
  - apply byte_of_Z_u8.
  - apply Z.div_unique with
      (r := u8 (byte_at d (o + 1)) * 65536 + u8 (byte_at d (o + 2)) * 256 +
            u8 (byte_at d (o + 3))); lia.
Qed.

Lemma copy_same_length {A : Type} (dst src : list A) :
  length dst = length src -> copy dst src = src.
Proof.
  intros H. unfold copy. rewrite H, take_ge, drop_ge by lia.
  apply app_nil_r.
Qed.

(** ** TENC: claims C4 and C9 *)

Lemma Tenc_parse_header_ok b d pp :
  8 <= len d ->
  TencBox.parse_header d (Frame b pp) =
  (Ok tt, Frame (TencBox.set_Header (header_of (TencBox.Header b) d) b) pp).
Proof.
  intros H. unfold TencBox.parse_header, BoxHeader_Parse. cbn [self p].
  by ltb_decide.
Qed.

Lemma Tenc_parse_prefix b d pp :
  12 <= len d ->
  TencBox.parse d (Frame b pp) =
  (if u8 (byte_at d 8) =? 0 then TencBox.parse_v0 d else mret tt)
    (Frame (TencBox.set_Flags (Z.land (u32_at d 8) 16777215)
             (TencBox.set_Version (byte_at d 8)
               (TencBox.set_Header (header_of (TencBox.Header b) d) b)))
           (Parser d 12)).
Proof.
  intros H. unfold TencBox.parse.
  rewrite bind_run, Tenc_parse_header_ok by lia.
  repeat mstep. rewrite version_byte by lia. done.
Qed.

(** C9. A [tenc] buffer of at least 12 bytes whose version byte is not
    0 parses without error.  The call stores the header, the version
    and the flags it has read and nothing else: every field that only
    the version-0 layout decodes keeps the value the receiver had, so
    on a fresh receiver all of them are left at their zero values. *)
Theorem TencBox_Parse_other_version b d :
  12 <= len d ->
  byte_at d 8 <> x00 ->
  exists b',
    TencBox.Parse b d = (Ok tt, b') /\
    TencBox.Header b' = header_of (TencBox.Header b) d /\
    TencBox.Version b' = byte_at d 8 /\
    TencBox.Flags b' = Z.land (u32_at d 8) 16777215 /\
    TencBox.DefaultIsProtected b' = TencBox.DefaultIsProtected b /\
    TencBox.DefaultPerSampleIVSize b' = TencBox.DefaultPerSampleIVSize b /\
    TencBox.DefaultKID b' = TencBox.DefaultKID b /\
    TencBox.DefaultConstantIVSize b' = TencBox.DefaultConstantIVSize b /\
    TencBox.DefaultConstantIV b' = TencBox.DefaultConstantIV b /\
    (b = TencBox.zero ->
     b' = {| TencBox.Header := header_of BoxHeader_zero d;
             TencBox.Version := byte_at d 8;
             TencBox.Flags := Z.land (u32_at d 8) 16777215;
             TencBox.DefaultIsProtected := x00;
             TencBox.DefaultPerSampleIVSize := x00;
             TencBox.DefaultKID := zero16;
             TencBox.DefaultConstantIVSize := x00;
             TencBox.DefaultConstantIV := [] |}).
Proof.
  intros Hlen Hv. unfold TencBox.Parse.
  rewrite Tenc_parse_prefix by done.
  assert ((u8 (byte_at d 8) =? 0) = false) as ->.
  { apply Z.eqb_neq. intros H0. by apply Hv, u8_zero_inv. }
  cbn [mret M_ret self]. eexists. split; [reflexivity|].
  repeat split. by intros ->.
Qed.

Lemma TencBox_Parse_other_version_witness :
  exists b',
    TencBox.Parse TencBox.zero tenc_v1 = (Ok tt, b') /\
    TencBox.Version b' = x01 /\
    TencBox.DefaultKID b' = zero16 /\
    TencBox.DefaultConstantIV b' = [].
Proof.
  destruct (TencBox_Parse_other_version TencBox.zero tenc_v1)
    as (b' & HP & _ & HV & _ & _ & _ & HK & _ & HI & _).
  - vm_compute. discriminate.
  - vm_compute. discriminate.
  - exists b'. split; [exact HP|]. split; [exact HV|]. split; [exact HK|exact HI].
Defined.

Lemma Tenc_parse_v0_fixed b d :
  32 <= len d ->
  TencBox.parse_v0 d (Frame b (Parser d 12)) =
  (let b1 := TencBox.set_DefaultKID
               (copy (TencBox.DefaultKID b) (slice d 16 32))
               (TencBox.set_DefaultPerSampleIVSize (byte_at d 15)
                 (TencBox.set_DefaultIsProtected (byte_at d 14) b)) in
   if (u8 (byte_at d 14) =? 1) && (u8 (byte_at d 15) =? 0)
   then if 32 <? Size (TencBox.Header b)
        then TencBox.parse_constant_iv d else mret tt
   else mret tt) (Frame
     (TencBox.set_DefaultKID
               (copy (TencBox.DefaultKID b) (slice d 16 32))
               (TencBox.set_DefaultPerSampleIVSize (byte_at d 15)
                 (TencBox.set_DefaultIsProtected (byte_at d 14) b)))
     (Parser d 32)).
Proof.
  intros H. unfold TencBox.parse_v0. repeat mstep.
  cbn [TencBox.set_DefaultKID TencBox.set_DefaultPerSampleIVSize
       TencBox.set_DefaultIsProtected TencBox.DefaultIsProtected
       TencBox.DefaultPerSampleIVSize TencBox.Header TencBox.DefaultKID].
  done.
Qed.

(** C4. For every [tenc] buffer of at least 32 bytes with version 0,
    isProtected 1 and perSampleIVSize 0: when the declared size is
    exactly 32 the parse succeeds and leaves [DefaultConstantIVSize]
    and [DefaultConstantIV] as the receiver had them (empty on a fresh
    receiver); when the declared size is above 32 and the buffer holds
    the size byte and that many IV bytes, the parse succeeds, the size
    byte is the byte at offset 32, the IV is the bytes after it, and
    [len(DefaultConstantIV) == DefaultConstantIVSize]. *)
Theorem TencBox_Parse_constant_iv b d :
  32 <= len d ->
  byte_at d 8 = x00 -> byte_at d 14 = x01 -> byte_at d 15 = x00 ->
  (u32_at d 0 = 32 ->
   exists b',
     TencBox.Parse b d = (Ok tt, b') /\
     TencBox.DefaultConstantIVSize b' = TencBox.DefaultConstantIVSize b /\
     TencBox.DefaultConstantIV b' = TencBox.DefaultConstantIV b) /\
  (32 < u32_at d 0 -> 33 + u8 (byte_at d 32) <= len d ->
   exists b',
     TencBox.Parse b d = (Ok tt, b') /\
     TencBox.DefaultConstantIVSize b' = byte_at d 32 /\
     TencBox.DefaultConstantIV b' = slice d 33 (33 + u8 (byte_at d 32)) /\
     len (TencBox.DefaultConstantIV b') = u8 (TencBox.DefaultConstantIVSize b')).
Proof.
  intros Hlen Hv Hp Hs. unfold TencBox.Parse.
  rewrite Tenc_parse_prefix by lia. rewrite Hv.
  change (u8 x00 =? 0) with true. cbv iota.
  rewrite Tenc_parse_v0_fixed by done. rewrite Hp, Hs.
  change ((u8 x01 =? 1) && (u8 x00 =? 0)) with true. cbv iota zeta.
  cbn [TencBox.Header TencBox.set_Flags TencBox.set_Version TencBox.set_Header
       header_of Size].
  split.
  - intros Hsz. rewrite Hsz. change (32 <? 32) with false. cbv iota.
    cbn [mret M_ret self]. eexists. split; [reflexivity|]. done.
  - intros Hsz Hbuf. assert ((32 <? u32_at d 0) = true) as ->
      by (apply Z.ltb_lt; lia).
    pose proof (u8_range (byte_at d 32)).
    unfold TencBox.parse_constant_iv. repeat mstep.
    cbn [TencBox.set_DefaultConstantIVSize TencBox.DefaultConstantIVSize].
    repeat mstep.
    eexists. split; [reflexivity|].
    cbn [TencBox.set_DefaultConstantIV TencBox.DefaultConstantIVSize
         TencBox.DefaultConstantIV].
    split; [done|]. split; [done|].
    cbn [TencBox.set_DefaultConstantIVSize TencBox.DefaultConstantIVSize].
    unfold len. rewrite length_slice by lia. lia.
Qed.

Lemma TencBox_Parse_constant_iv_witness :
  (exists b', TencBox.Parse TencBox.zero tenc_min = (Ok tt, b') /\
              TencBox.DefaultConstantIV b' = []) /\
  (exists b', TencBox.Parse TencBox.zero tenc_tail = (Ok tt, b') /\
              TencBox.DefaultConstantIVSize b' = x04 /\
              TencBox.DefaultConstantIV b' = [x01; x02; x03; x04]).
Proof.
  split.
  - destruct (TencBox_Parse_constant_iv TencBox.zero tenc_min) as [H _];
      [vm_compute; discriminate | reflexivity | reflexivity | reflexivity |].
    destruct H as (b' & HP & _ & HI); [reflexivity|].
    exists b'. split; [exact HP | exact HI].
  - destruct (TencBox_Parse_constant_iv TencBox.zero tenc_tail) as [_ H];
      [vm_compute; discriminate | reflexivity | reflexivity | reflexivity |].
    destruct H as (b' & HP & HS & HI & _);
      [reflexivity | vm_compute; discriminate |].
    exists b'. split; [exact HP|]. split; [exact HS | exact HI].
Defined.

(** ** What a computation leaves untouched *)

Section Untouched.
Context {B X : Type} (phi : B -> X).

Lemma untouched_ret {A} (a : A) : untouched phi (mret a : M (frame B) A).
Proof. by intros s. Qed.

Lemma untouched_throw {A} msg : untouched phi (throw msg : M (frame B) A).
Proof. by intros s. Qed.

Lemma untouched_fail_if c msg : untouched phi (fail_if c msg : M (frame B) unit).
Proof. by destruct c; intros s. Qed.

Lemma untouched_bind {A C} (m : M (frame B) A) (f : A -> M (frame B) C) :
  untouched phi m -> (forall a, untouched phi (f a)) -> untouched phi (m ≫= f).
Proof.
  intros Hm Hf s. rewrite bind_run. specialize (Hm s).
  destruct (m s) as [[a|e|e] s1]; cbn [snd] in *; [|done|done].
  by rewrite Hf.
Qed.

Lemma untouched_for n : forall i (body : Z -> M (frame B) unit),
  (forall k, untouched phi (body k)) -> untouched phi (for_ n i body).
Proof.
  induction n as [|n IH]; intros i body Hb; cbn [for_].
  - apply untouched_ret.
  - apply untouched_bind; [apply Hb | intros _; by apply IH].
Qed.

Lemma untouched_get_offset : untouched phi (get_offset : M (frame B) Z).
Proof. by intros s. Qed.

Lemma untouched_get_self : untouched phi (get_self : M (frame B) B).
Proof. by intros s. Qed.

Lemma untouched_set_p d o : untouched phi (set_p d o : M (frame B) unit).
Proof. by intros s. Qed.

Lemma untouched_Bytes n : untouched phi (Bytes n : M (frame B) (list byte)).
Proof. intros s. unfold Bytes. by destruct (_ && _). Qed.

Lemma untouched_Byte : untouched phi (Byte : M (frame B) byte).
Proof.
  apply untouched_bind; [apply untouched_Bytes | intros; apply untouched_ret].
Qed.

Lemma untouched_Uint16 : untouched phi (Uint16 : M (frame B) Z).
Proof.
  apply untouched_bind; [apply untouched_Bytes | intros; apply untouched_ret].
Qed.

Lemma untouched_Uint32 : untouched phi (Uint32 : M (frame B) Z).
Proof.
  apply untouched_bind; [apply untouched_Bytes | intros; apply untouched_ret].
Qed.

Lemma untouched_modify_self (f : B -> B) :
  (forall b, phi (f b) = phi b) -> untouched phi (modify_self f).
Proof. intros Hf s. apply Hf. Qed.

Lemma err_keeps_bind {A C} (m : M (frame B) A) (f : A -> M (frame B) C) :
  untouched phi m -> (forall a, err_keeps phi (f a)) -> err_keeps phi (m ≫= f).
Proof.
  intros Hm Hf s e s'. rewrite bind_run. specialize (Hm s).
  destruct (m s) as [[a|e1|e1] s1]; cbn [snd] in *; intros Hs.
  - rewrite <- Hm. by eapply Hf.
  - by injection Hs as _ <-.
  - discriminate Hs.
Qed.

Lemma err_keeps_modify_self (f : B -> B) : err_keeps phi (modify_self f).
Proof. intros s e s' Hs. discriminate Hs. Qed.

Lemma err_keeps_ret {A} (a : A) : err_keeps phi (mret a : M (frame B) A).
Proof. intros s e s' Hs. discriminate Hs. Qed.
End Untouched.

Ltac untouched_step :=
  first
    [ apply untouched_ret | apply untouched_throw | apply untouched_fail_if
    | apply untouched_get_offset | apply untouched_get_self
    | apply untouched_set_p | apply untouched_Bytes | apply untouched_Byte
    | apply untouched_Uint16 | apply untouched_Uint32
    | apply untouched_modify_self; intros; reflexivity
    | apply untouched_for; intros
    | apply untouched_bind; [|intros] ].

(** ** PSSH: claims C6, C7, C10 *)

Lemma slice_4' (d : list byte) (o o' : Z) :
  0 <= o -> o' = o + 4 -> o' <= len d ->
  slice d o o' =
  [byte_at d o; byte_at d (o + 1); byte_at d (o + 2); byte_at d (o + 3)].
Proof. intros Ho -> Hle. by apply slice_4. Qed.

Lemma Pssh_parse_header_ok b d pp :
  8 <= len d ->
  PsshBox.parse_header d (Frame b pp) =
  (Ok tt, Frame (PsshBox.set_Header (header_of (PsshBox.Header b) d) b) pp).
Proof.
  intros H. unfold PsshBox.parse_header, BoxHeader_Parse. cbn [self p].
  by ltb_decide.
Qed.

Lemma Pssh_parse_header_short b d pp :
  len d < 8 ->
  PsshBox.parse_header d (Frame b pp) =
  (Err "box header too short",
   Frame (PsshBox.set_Header (PsshBox.Header b) b) pp).
Proof.
  intros H. unfold PsshBox.parse_header, BoxHeader_Parse. cbn [self p].
  by ltb_decide.
Qed.

Lemma Pssh_parse_prefix b d pp :
  28 <= len d ->
  PsshBox.parse d (Frame b pp) =
  ((if 0 <? u8 (byte_at d 8) then PsshBox.parse_kids d else mret tt);;
   PsshBox.parse_data d) (Frame (pssh_fixed b d) (Parser d 28)).
Proof.
  intros H. unfold PsshBox.parse.
  rewrite bind_run, Pssh_parse_header_ok by lia.
  repeat mstep.
  cbn [PsshBox.Version PsshBox.set_SystemID PsshBox.set_Flags
       PsshBox.set_Version PsshBox.Flags PsshBox.SystemID PsshBox.set_Header].
  rewrite (slice_4' d 8 12) by lia. cbn [nth].
  rewrite <- (slice_4' d 8 12) by lia. reflexivity.
Qed.

Lemma Pssh_read_kids_ok d n : forall done i o b,
  Z.to_nat i = length done -> 0 <= i -> 0 <= o ->
  o + 16 * Z.of_nat n <= len d ->
  PsshBox.KIDs b = done ++ replicate n zero16 ->
  for_ n i PsshBox.read_kid (Frame b (Parser d o)) =
  (Ok tt, Frame (PsshBox.set_KIDs (done ++ kids_at d o n) b)
                (Parser d (o + 16 * Z.of_nat n))).
Proof.
  induction n as [|n IH]; intros done i o b Hi Hi0 Ho Hle HK.
  - cbn [for_ kids_at mret M_ret]. cbn [replicate] in HK.
    replace (o + 16 * Z.of_nat 0) with o by lia.
    rewrite <- HK. by destruct b.
  - cbn [for_]. rewrite bind_run. unfold PsshBox.read_kid at 1.
    repeat mstep.
    assert (alter (fun a => copy a (slice d o (o + 16))) (Z.to_nat i) (PsshBox.KIDs b)
            = (done ++ [slice d o (o + 16)]) ++ replicate n zero16) as Halt.
    { rewrite HK, Hi. replace (length done) with (length done + 0)%nat by lia.
      rewrite alter_app_r. cbn [replicate alter list_alter].
      rewrite copy_same_length.
      - by rewrite <- app_assoc.
      - unfold zero16. rewrite length_replicate, length_slice by lia.
        lia. }
    rewrite (IH (done ++ [slice d o (o + 16)]) (i + 1) (o + 16)).
    + cbn [kids_at]. rewrite <- app_assoc. cbn [app].
      do 3 f_equal. lia.
    + rewrite length_app. cbn [length]. lia.
    + lia.
    + lia.
    + lia.
    + cbn [PsshBox.KIDs PsshBox.set_KIDs]. exact Halt.
Qed.

Lemma Pssh_read_kids_panic d n : forall i o b,
  0 <= o -> o <= len d -> len d < o + 16 * Z.of_nat n ->
  fst (for_ n i PsshBox.read_kid (Frame b (Parser d o))) =
  Panic "slice bounds out of range".
Proof.
  induction n as [|n IH]; intros i o b Ho Hle Hlt; [lia|].
  cbn [for_]. rewrite bind_run. unfold PsshBox.read_kid at 1.
  destruct (Z.le_gt_cases (o + 16) (len d)) as [Hfit|Hfit].
  - repeat mstep. apply IH; lia.
  - rewrite bind_run, Bytes_panic by lia. done.
Qed.

Lemma length_kids_at d n : forall o, length (kids_at d o n) = n.
Proof. induction n as [|n IH]; intros o; cbn; [done | by rewrite IH]. Qed.

Lemma lookup_kids_at d n : forall o (i : nat),
  (i < n)%nat ->
  kids_at d o n !! i =
  Some (slice d (o + 16 * Z.of_nat i) (o + 16 * Z.of_nat i + 16)).
Proof.
  induction n as [|n IH]; intros o i Hi; [lia|].
  destruct i as [|i]; cbn [kids_at lookup list_lookup].
  - f_equal. f_equal; lia.
  - rewrite IH by lia. f_equal. f_equal; lia.
Qed.

(** Outcome of [parse_data] from a cursor inside the buffer. *)
Lemma Pssh_parse_data_run b d o :
  0 <= o -> o <= len d ->
  PsshBox.parse_data d (Frame b (Parser d o)) =
  if len d <? o + 4
  then (Err "pssh too short for data size", Frame b (Parser d o))
  else if len d <? o + 4 + u32_at d o
       then (Err "pssh size mismatch", Frame b (Parser d (o + 4)))
       else (Ok tt,
             Frame (PsshBox.set_Data (slice d (o + 4) (o + 4 + u32_at d o)) b)
                   (Parser d (o + 4 + u32_at d o))).
Proof.
  intros Ho Hle. unfold PsshBox.parse_data. pose proof (u32_at_range d o).
  rewrite bind_run. cbn [get_offset p offset]. rewrite bind_run.
  destruct (Z.ltb_spec (len d) (o + 4)); [done|].
  cbn [fail_if mret M_ret]. repeat mstep.
  destruct (Z.ltb_spec (len d) (o + 4 + u32_at d o)); [done|].
  cbn [fail_if mret M_ret]. repeat mstep. done.
Qed.

(** Outcome of [parse_kids] at offset 28. *)
Lemma Pssh_parse_kids_run b d :
  28 <= len d ->
  PsshBox.parse_kids d (Frame b (Parser d 28)) =
  if len d <? 32
  then (Err "pssh too short for KID count", Frame b (Parser d 28))
  else if len d <? 32 + u32_mul (u32_at d 28) 16
       then (Err "pssh too short for KIDs", Frame b (Parser d 32))
       else for_ (Z.to_nat (u32_at d 28)) 0 PsshBox.read_kid
              (Frame (PsshBox.set_KIDs
                        (replicate (Z.to_nat (u32_at d 28)) zero16) b)
                     (Parser d 32)).
Proof.
  intros Hle. unfold PsshBox.parse_kids.
  rewrite bind_run. cbn [get_offset p offset]. rewrite bind_run.
  change (28 + 4) with 32.
  destruct (Z.ltb_spec (len d) 32); [done|].
  cbn [fail_if mret M_ret]. repeat mstep.
  destruct (Z.ltb_spec (len d) (32 + u32_mul (u32_at d 28) 16)); [done|].
  cbn [fail_if mret M_ret]. repeat mstep. done.
Qed.

Lemma Pssh_Parse_no_header b d :
  len d < 8 ->
  PsshBox.Parse b d =
  (Err "box header too short", PsshBox.set_Header (PsshBox.Header b) b).
Proof.
  intros H. unfold PsshBox.Parse, PsshBox.parse.
  by rewrite bind_run, Pssh_parse_header_short.
Qed.

Lemma Pssh_Parse_short b d :
  8 <= len d < 28 ->
  PsshBox.Parse b d =
  (Err "pssh too short", PsshBox.set_Header (header_of (PsshBox.Header b) d) b).
Proof.
  intros H. unfold PsshBox.Parse, PsshBox.parse.
  rewrite bind_run, Pssh_parse_header_ok by lia. by repeat mstep.
Qed.

Lemma Pssh_Parse_v0 b d :
  28 <= len d -> byte_at d 8 = x00 ->
  PsshBox.Parse b d =
  let '(r, st) := PsshBox.parse_data d (Frame (pssh_fixed b d) (Parser d 28)) in
  (r, self st).
Proof.
  intros H Hv. unfold PsshBox.Parse. rewrite Pssh_parse_prefix by done.
  rewrite Hv. change (0 <? u8 x00) with false. cbv iota.
  by rewrite bind_run.
Qed.

Lemma Pssh_Parse_v1_no_count b d :
  28 <= len d < 32 -> 0 < u8 (byte_at d 8) ->
  PsshBox.Parse b d = (Err "pssh too short for KID count", pssh_fixed b d).
Proof.
  intros H Hv. unfold PsshBox.Parse. rewrite Pssh_parse_prefix by lia.
  assert ((0 <? u8 (byte_at d 8)) = true) as -> by (by apply Z.ltb_lt).
  rewrite bind_run, Pssh_parse_kids_run by lia. by ltb_decide.
Qed.

Lemma Pssh_Parse_v1_check b d :
  32 <= len d -> 0 < u8 (byte_at d 8) ->
  len d < 32 + u32_mul (u32_at d 28) 16 ->
  PsshBox.Parse b d = (Err "pssh too short for KIDs", pssh_fixed b d).
Proof.
  intros H Hv Hc. unfold PsshBox.Parse. rewrite Pssh_parse_prefix by lia.
  assert ((0 <? u8 (byte_at d 8)) = true) as -> by (by apply Z.ltb_lt).
  rewrite bind_run, Pssh_parse_kids_run by lia. by do 2 ltb_decide.
Qed.

Lemma Pssh_Parse_v1_overrun b d :
  32 <= len d -> 0 < u8 (byte_at d 8) ->
  32 + u32_mul (u32_at d 28) 16 <= len d ->
  len d < 32 + 16 * u32_at d 28 ->
  fst (PsshBox.Parse b d) = Panic "slice bounds out of range".
Proof.
  intros H Hv Hc Hover. pose proof (u32_at_range d 28).
  unfold PsshBox.Parse. rewrite Pssh_parse_prefix by lia.
  assert ((0 <? u8 (byte_at d 8)) = true) as -> by (by apply Z.ltb_lt).
  rewrite bind_run, Pssh_parse_kids_run by lia. do 2 ltb_decide.
  pose proof (Pssh_read_kids_panic d (Z.to_nat (u32_at d 28)) 0 32
                (PsshBox.set_KIDs (replicate (Z.to_nat (u32_at d 28)) zero16)
                   (pssh_fixed b d))) as HP.
  destruct (for_ _ _ _ _) as [r st'].
  cbn [fst] in HP. rewrite HP by lia. done.
Qed.

Lemma Pssh_Parse_v1_kids b d :
  0 < u8 (byte_at d 8) ->
  32 + 16 * u32_at d 28 <= len d ->
  PsshBox.Parse b d =
  let '(r, st) :=
    PsshBox.parse_data d
      (Frame (PsshBox.set_KIDs (kids_at d 32 (Z.to_nat (u32_at d 28)))
                (pssh_fixed b d))
             (Parser d (32 + 16 * u32_at d 28))) in
  (r, self st).
Proof.
  intros Hv Hfit. pose proof (u32_at_range d 28).
  assert (u32_mul (u32_at d 28) 16 <= 16 * u32_at d 28).
  { unfold u32_mul. rewrite (Z.mul_comm (u32_at d 28)).
    apply Z.mod_le; lia. }
  unfold PsshBox.Parse. rewrite Pssh_parse_prefix by lia.
  assert ((0 <? u8 (byte_at d 8)) = true) as -> by (by apply Z.ltb_lt).
  rewrite bind_run, Pssh_parse_kids_run by lia. do 2 ltb_decide.
  rewrite (Pssh_read_kids_ok d _ []) by
    (cbn [length app PsshBox.KIDs PsshBox.set_KIDs]; (done || lia)).
  cbn [app]. rewrite Z2Nat.id by lia. done.
Qed.

Lemma Pssh_parse_data_KIDs b d o :
  0 <= o -> o <= len d ->
  PsshBox.KIDs (self (snd (PsshBox.parse_data d (Frame b (Parser d o))))) =
  PsshBox.KIDs b.
Proof.
  intros Ho Hle. rewrite Pssh_parse_data_run by done.
  by repeat case_match.
Qed.

Lemma Pssh_parse_data_not_KIDs_error b d o :
  0 <= o -> o <= len d ->
  fst (PsshBox.parse_data d (Frame b (Parser d o))) <>
  Err "pssh too short for KIDs".
Proof.
  intros Ho Hle. rewrite Pssh_parse_data_run by done.
  by repeat case_match.
Qed.

(** C6. With version byte 0 the call leaves [KIDs] exactly as the
    receiver had it (empty on a fresh receiver), whatever the buffer
    holds and however the call ends.  With a version byte above 0,
    whenever the call succeeds [KIDs] has exactly [kidCount] entries
    (the 32-bit count at offset 28), each 16 bytes long, entry [i]
    being the bytes [32+16i, 48+16i) of the buffer. *)
Theorem PsshBox_Parse_key_ids b d :
  (byte_at d 8 = x00 ->
   PsshBox.KIDs (snd (PsshBox.Parse b d)) = PsshBox.KIDs b) /\
  (forall b', PsshBox.Parse b d = (Ok tt, b') -> 0 < u8 (byte_at d 8) ->
     length (PsshBox.KIDs b') = Z.to_nat (u32_at d 28) /\
     forall i : nat, (i < Z.to_nat (u32_at d 28))%nat ->
       exists kid,
         PsshBox.KIDs b' !! i = Some kid /\ length kid = 16%nat /\
         kid = slice d (32 + 16 * Z.of_nat i) (32 + 16 * Z.of_nat i + 16)).
Proof.
  split.
  - intros Hv.
    destruct (Z.lt_ge_cases (len d) 8) as [H8|H8];
      [by rewrite Pssh_Parse_no_header|].
    destruct (Z.lt_ge_cases (len d) 28) as [H28|H28];
      [by rewrite Pssh_Parse_short|].
    rewrite Pssh_Parse_v0 by done.
    pose proof (Pssh_parse_data_KIDs (pssh_fixed b d) d 28) as HK.
    destruct (PsshBox.parse_data _ _) as [r st]. cbn [snd] in *.
    by rewrite HK by lia.
  - intros b' HP Hv. pose proof (u32_at_range d 28) as HK.
    destruct (Z.lt_ge_cases (len d) 8) as [H8|H8];
      [by rewrite Pssh_Parse_no_header in HP|].
    destruct (Z.lt_ge_cases (len d) 28) as [H28|H28];
      [by rewrite Pssh_Parse_short in HP|].
    destruct (Z.lt_ge_cases (len d) 32) as [H32|H32];
      [by rewrite Pssh_Parse_v1_no_count in HP|].
    destruct (Z.lt_ge_cases (len d) (32 + u32_mul (u32_at d 28) 16)) as [Hc|Hc];
      [by rewrite Pssh_Parse_v1_check in HP|].
    destruct (Z.lt_ge_cases (len d) (32 + 16 * u32_at d 28)) as [Hfit|Hfit].
    { pose proof (Pssh_Parse_v1_overrun b d H32 Hv Hc Hfit) as Hp.
      by rewrite HP in Hp. }
    rewrite Pssh_Parse_v1_kids in HP by done.
    match type of HP with
    | context [PsshBox.parse_data d (Frame ?b2 (Parser d ?o))] =>
        pose proof (Pssh_parse_data_KIDs b2 d o) as Hkeep;
        destruct (PsshBox.parse_data d (Frame b2 (Parser d o))) as [r st]
    end.
    cbn [snd] in Hkeep. injection HP as _ <-.
    rewrite Hkeep by lia. cbn [PsshBox.KIDs PsshBox.set_KIDs].
    split; [apply length_kids_at|].
    intros i Hi. eexists. split; [by apply lookup_kids_at|].
    split; [|done]. rewrite length_slice; lia.
Qed.

Lemma PsshBox_Parse_key_ids_witness :
  PsshBox.KIDs (snd (PsshBox.Parse PsshBox.zero pssh_v0)) = [] /\
  (length (PsshBox.KIDs (snd (PsshBox.Parse PsshBox.zero pssh_two))) = 2%nat /\
   PsshBox.KIDs (snd (PsshBox.Parse PsshBox.zero pssh_two)) !! 1%nat
     = Some (replicate 16 x02)).
Proof.
  split.
  - apply (PsshBox_Parse_key_ids PsshBox.zero pssh_v0). reflexivity.
  - destruct (PsshBox_Parse_key_ids PsshBox.zero pssh_two) as [_ H].
    destruct (H (snd (PsshBox.Parse PsshBox.zero pssh_two))) as [Hl Hk].
    + vm_compute. reflexivity.
    + vm_compute. reflexivity.
    + split; [exact Hl|].
      destruct (Hk 1%nat) as (kid & -> & _ & ->).
      * vm_compute. lia.
      * vm_compute. reflexivity.
Defined.

Lemma pssh_wrap_facts :
  len pssh_wrap = 48 /\ u8 (byte_at pssh_wrap 8) = 1 /\
  u32_at pssh_wrap 28 = 268435457 /\
  u32_mul (u32_at pssh_wrap 28) 16 = 16.
Proof. vm_compute. done. Qed.

(** C7 at a failing input: a 48-byte version-1 box declaring
    0x10000001 key IDs.  The key-ID array needs 16*0x10000001 bytes and
    the buffer holds 16, yet the call does not return the
    length-violation error: it panics on the second key-ID read. *)
Theorem PsshBox_Parse_wrapped_count_panics :
  len pssh_wrap < 32 + 16 * u32_at pssh_wrap 28 /\
  fst (PsshBox.Parse PsshBox.zero pssh_wrap) = Panic "slice bounds out of range".
Proof.
  destruct pssh_wrap_facts as (Hl & Hv & Hk & Hm).
  split; [rewrite Hl, Hk; lia|].
  apply Pssh_Parse_v1_overrun; rewrite ?Hl, ?Hv, ?Hm, ?Hk; lia.
Qed.

(** C10. For a version-1 (or later) buffer of at least 32 bytes, the
    call returns the key-ID length error exactly when the buffer is
    shorter than 32 plus [kidCount*16] reduced modulo [2^32]; so for
    [kidCount = 0x10000001] the test passes on a 48-byte buffer, far
    shorter than the [16*kidCount] bytes the key IDs need. *)
Theorem PsshBox_kid_check_wraps :
  (forall b d, 32 <= len d -> 0 < u8 (byte_at d 8) ->
     (fst (PsshBox.Parse b d) = Err "pssh too short for KIDs" <->
      len d < 32 + (u32_at d 28 * 16) mod 4294967296)) /\
  (exists d, u8 (byte_at d 8) = 1 /\ u32_at d 28 = 268435457 /\
             268435456 <= u32_at d 28 /\ len d = 48 /\
             len d < 16 * u32_at d 28 /\
             fst (PsshBox.Parse PsshBox.zero d) <> Err "pssh too short for KIDs").
Proof.
  assert (forall b d, 32 <= len d -> 0 < u8 (byte_at d 8) ->
     (fst (PsshBox.Parse b d) = Err "pssh too short for KIDs" <->
      len d < 32 + (u32_at d 28 * 16) mod 4294967296)) as Hiff.
  { intros b d H32 Hv. fold (u32_mul (u32_at d 28) 16). split.
    - intros HE.
      destruct (Z.lt_ge_cases (len d) (32 + u32_mul (u32_at d 28) 16))
        as [Hc|Hc]; [done|exfalso].
      destruct (Z.lt_ge_cases (len d) (32 + 16 * u32_at d 28)) as [Hfit|Hfit].
      + rewrite Pssh_Parse_v1_overrun in HE by done. discriminate HE.
      + pose proof (u32_at_range d 28).
        rewrite Pssh_Parse_v1_kids in HE by done.
        match type of HE with
        | context [PsshBox.parse_data d (Frame ?b2 (Parser d ?o))] =>
            pose proof (Pssh_parse_data_not_KIDs_error b2 d o) as Hne;
            destruct (PsshBox.parse_data d (Frame b2 (Parser d o))) as [r st]
        end.
        cbn [fst] in *. apply Hne; (lia || done).
    - intros Hc. by rewrite Pssh_Parse_v1_check. }
  split; [exact Hiff|].
  destruct pssh_wrap_facts as (Hl & Hv & Hk & Hm).
  exists pssh_wrap.
  split; [exact Hv|]. split; [exact Hk|]. split; [rewrite Hk; lia|].
  split; [exact Hl|]. split; [rewrite Hl, Hk; lia|].
  intros HE. apply Hiff in HE; rewrite ?Hl, ?Hv; try lia.
  fold (u32_mul (u32_at pssh_wrap 28) 16) in HE. rewrite Hm, Hl in HE. lia.
Qed.

Lemma PsshBox_kid_check_wraps_witness :
  len pssh_wrap < 16 * u32_at pssh_wrap 28 /\
  fst (PsshBox.Parse PsshBox.zero pssh_wrap) <> Err "pssh too short for KIDs".
Proof.
  destruct pssh_wrap_facts as (Hl & Hv & Hk & Hm).
  split; [rewrite Hl, Hk; lia|].
  intros HE.
  apply (proj1 PsshBox_kid_check_wraps PsshBox.zero pssh_wrap) in HE.
  - fold (u32_mul (u32_at pssh_wrap 28) 16) in HE. rewrite Hm, Hl in HE. lia.
  - rewrite Hl. lia.
  - rewrite Hv. lia.
Defined.

(** ** SENC: claim C5 *)

Lemma Senc_parse_header_ok b d pp :
  8 <= len d ->
  SencBox.parse_header d (Frame b pp) =
  (Ok tt, Frame (SencBox.set_Header (header_of (SencBox.Header b) d) b) pp).
Proof.
  intros H. unfold SencBox.parse_header, BoxHeader_Parse. cbn [self p].
  by ltb_decide.
Qed.

Lemma Senc_parse_header_short b d pp :
  len d < 8 ->
  SencBox.parse_header d (Frame b pp) =
  (Err "box header too short",
   Frame (SencBox.set_Header (SencBox.Header b) b) pp).
Proof.
  intros H. unfold SencBox.parse_header, BoxHeader_Parse. cbn [self p].
  by ltb_decide.
Qed.

Lemma Senc_parse_prefix b d pp :
  16 <= len d ->
  SencBox.parse d (Frame b pp) =
  for_ (Z.to_nat (u32_at d 12)) 0
    (SencBox.read_sample d (negb (Z.land (Z.land (u32_at d 8) 16777215) 2 =? 0)))
    (Frame (senc_fixed b d) (Parser d 16)).
Proof.
  intros H. unfold SencBox.parse.
  rewrite bind_run, Senc_parse_header_ok by lia.
  repeat mstep. done.
Qed.

Lemma modify_sample_run b d o i f pre s post :
  Z.to_nat i = length pre ->
  SencBox.Samples b = pre ++ s :: post ->
  SencBox.modify_sample i f (Frame b (Parser d o)) =
  (Ok tt, Frame (SencBox.set_Samples (pre ++ f s :: post) b) (Parser d o)).
Proof.
  intros Hi HS. unfold SencBox.modify_sample, modify_self. cbn [self p].
  rewrite HS, Hi. replace (length pre) with (length pre + 0)%nat by lia.
  by rewrite alter_app_r.
Qed.

Lemma Senc_read_subsample_loop_ok d i pre post n : forall sdone j o b s,
  Z.to_nat i = length pre -> Z.to_nat j = length sdone -> 0 <= j -> 0 <= o ->
  o + 6 * Z.of_nat n <= len d ->
  SencBox.Samples b = pre ++ s :: post ->
  Subsamples s = sdone ++ replicate n SubsampleInfo_zero ->
  for_ n j (SencBox.read_subsample d i) (Frame b (Parser d o)) =
  (Ok tt,
   Frame (SencBox.set_Samples
            (pre ++ set_Subsamples (sdone ++ subsamples_at d o n) s :: post) b)
         (Parser d (o + 6 * Z.of_nat n))).
Proof.
  induction n as [|n IH]; intros sdone j o b s Hi Hj Hj0 Ho Hfit HS Hsub.
  - cbn [for_ subsamples_at mret M_ret]. cbn [replicate] in Hsub.
    replace (o + 6 * Z.of_nat 0) with o by lia.
    rewrite <- Hsub.
    replace (set_Subsamples (Subsamples s) s) with s by (by destruct s).
    rewrite <- HS. by destruct b.
  - cbn [for_]. rewrite bind_run. unfold SencBox.read_subsample at 1.
    repeat mstep.
    rewrite (modify_sample_run _ _ _ _ _ pre s post) by done.
    set (sub := {| BytesOfClearData := u16_at d o;
                   BytesOfProtectedData := u32_at d (o + 2) |}).
    assert (<[Z.to_nat j := sub]> (Subsamples s) =
            (sdone ++ [sub]) ++ replicate n SubsampleInfo_zero) as Hins.
    { rewrite Hsub, Hj. replace (length sdone) with (length sdone + 0)%nat by lia.
      rewrite insert_app_r. cbn [replicate]. by rewrite <- app_assoc. }
    rewrite Hins. replace (o + 2 + 4) with (o + 6) by lia.
    rewrite (IH (sdone ++ [sub]) (j + 1) (o + 6) _
               (set_Subsamples ((sdone ++ [sub]) ++ replicate n SubsampleInfo_zero) s));
      try done; try lia.
    + cbn [subsamples_at set_Subsamples IV Subsamples SencBox.set_Samples
           SencBox.Header SencBox.Flags SencBox.Samples].
      rewrite <- app_assoc. cbn [app].
      replace (o + 6 + 6 * Z.of_nat n) with (o + 6 * Z.of_nat (S n)) by lia.
      done.
    + rewrite length_app. cbn [length]. lia.
Qed.

Lemma Senc_read_subsample_loop_err d i n : forall j o b,
  0 <= o -> o <= len d -> len d < o + 6 * Z.of_nat n ->
  exists st,
    for_ n j (SencBox.read_subsample d i) (Frame b (Parser d o)) =
    (Err "senc truncated while reading subsample", st).
Proof.
  induction n as [|n IH]; intros j o b Ho Hle Hlt; [lia|].
  cbn [for_]. rewrite bind_run. unfold SencBox.read_subsample at 1.
  rewrite bind_run. cbn [get_offset p offset]. rewrite bind_run.
  destruct (Z.ltb_spec (len d) (o + 6)) as [Hc|Hc]; [by eexists|].
  cbn [fail_if mret M_ret]. repeat mstep.
  unfold SencBox.modify_sample, modify_self. cbn [self p].
  replace (o + 2 + 4) with (o + 6) by lia.
  apply IH; lia.
Qed.

Lemma Senc_read_samples_ok d subs n : forall pre i o b st',
  Z.to_nat i = length pre -> 0 <= i -> 0 <= o ->
  SencBox.Samples b = pre ++ replicate n SampleEncryptionInfo_zero ->
  for_ n i (SencBox.read_sample d subs) (Frame b (Parser d o)) = (Ok tt, st') ->
  SencBox.Samples (self st') = pre ++ samples_at subs d o n.
Proof.
  induction n as [|n IH]; intros pre i o b st' Hi Hi0 Ho HS.
  - cbn [for_ mret M_ret samples_at replicate] in *. by intros [= <-].
  - cbn [for_]. rewrite bind_run. unfold SencBox.read_sample at 1.
    rewrite bind_run. cbn [get_offset p offset]. rewrite bind_run.
    destruct (Z.ltb_spec (len d) (o + 8)) as [Hc|Hc]; [done|].
    cbn [fail_if mret M_ret]. repeat mstep.
    cbn [replicate] in HS.
    rewrite (modify_sample_run _ _ _ _ _ pre SampleEncryptionInfo_zero
               (replicate n SampleEncryptionInfo_zero)) by done.
    cbn [set_IV SampleEncryptionInfo_zero Subsamples].
    destruct subs.
    + unfold SencBox.read_subsamples.
      rewrite bind_run. cbn [get_offset p offset]. rewrite bind_run.
      destruct (Z.ltb_spec (len d) (o + 8 + 2)) as [Hc2|Hc2]; [done|].
      cbn [fail_if mret M_ret]. repeat mstep.
      pose proof (u16_at_range d (o + 8)) as Hcnt.
      rewrite (modify_sample_run _ _ _ _ _ pre
                 {| IV := slice d o (o + 8); Subsamples := [] |}
                 (replicate n SampleEncryptionInfo_zero))
        by (cbn [SencBox.Samples SencBox.set_Samples]; done).
      destruct (Z.lt_ge_cases (len d)
                  (o + 8 + 2 + 6 * Z.of_nat (Z.to_nat (u16_at d (o + 8)))))
        as [Hfit|Hfit].
      * match goal with
        | |- context [for_ ?k 0 (SencBox.read_subsample d i)
                        (Frame ?bb (Parser d ?oo))] =>
            destruct (Senc_read_subsample_loop_err d i k 0 oo bb)
              as [st Hst]; [lia | lia | lia |]
        end.
        rewrite Hst. done.
      * match goal with
        | |- context [for_ ?k 0 (SencBox.read_subsample d i)
                        (Frame (SencBox.set_Samples (pre ++ ?s :: ?post) ?bb)
                               (Parser d ?oo))] =>
            rewrite (Senc_read_subsample_loop_ok d i pre post k [] 0 oo
                       (SencBox.set_Samples (pre ++ s :: post) bb) s)
              by (done || lia)
        end.
        intros Hrun.
        apply (IH (pre ++ [{| IV := slice d o (o + 8);
                              Subsamples := subsamples_at d (o + 10)
                                 (Z.to_nat (u16_at d (o + 8))) |}])
                  (i + 1)) in Hrun.
        -- rewrite Hrun, <- app_assoc. cbn [app samples_at].
           do 3 f_equal. rewrite Z2Nat.id by lia. lia.
        -- rewrite length_app. cbn [length]. lia.
        -- lia.
        -- lia.
        -- cbn [SencBox.Samples SencBox.set_Samples set_Subsamples IV app].
           rewrite <- app_assoc. cbn [app].
           replace (o + 8 + 2) with (o + 10) by lia. done.
    + repeat mstep. intros Hrun.
      apply (IH (pre ++ [{| IV := slice d o (o + 8); Subsamples := [] |}])
                (i + 1)) in Hrun.
      * rewrite Hrun, <- app_assoc. by cbn [app samples_at].
      * rewrite length_app. cbn [length]. lia.
      * lia.
      * lia.
      * cbn [SencBox.Samples SencBox.set_Samples]. by rewrite <- app_assoc.
Qed.

Lemma length_subsamples_at d n : forall o, length (subsamples_at d o n) = n.
Proof. induction n as [|n IH]; intros o; cbn; [done | by rewrite IH]. Qed.

Lemma lookup_subsamples_at d n : forall o (j : nat) sub,
  subsamples_at d o n !! j = Some sub ->
  sub = subsample_at d (o + 6 * Z.of_nat j).
Proof.
  induction n as [|n IH]; intros o j sub; [done|].
  destruct j as [|j]; cbn [subsamples_at lookup list_lookup].
  - intros [= <-]. f_equal. lia.
  - intros H. apply IH in H. rewrite H. f_equal. lia.
Qed.

Lemma length_samples_at subs d n : forall o, length (samples_at subs d o n) = n.
Proof. induction n as [|n IH]; intros o; cbn; [done | by rewrite IH]. Qed.

Lemma samples_at_entries d n : forall o, entries_at d o (samples_at true d o n).
Proof.
  induction n as [|n IH]; intros o; cbn [samples_at]; constructor;
    cbn [IV Subsamples].
  - done.
  - rewrite length_subsamples_at. pose proof (u16_at_range d (o + 8)). lia.
  - intros j sub Hj. apply lookup_subsamples_at in Hj as ->.
    cbn [subsample_at BytesOfClearData BytesOfProtectedData]. done.
  - apply IH.
Qed.

Lemma samples_at_ivs d n : forall o, ivs_at d o (samples_at false d o n).
Proof.
  induction n as [|n IH]; intros o; cbn [samples_at]; constructor;
    cbn [IV Subsamples]; (done || apply IH).
Qed.

Lemma ivs_at_no_subsamples d l : forall o,
  ivs_at d o l -> Forall (fun s => Subsamples s = []) l.
Proof. induction l as [|s l IH]; intros o H; inversion H; subst; eauto. Qed.

Lemma Senc_Parse_no_header b d :
  len d < 8 ->
  SencBox.Parse b d =
  (Err "box header too short", SencBox.set_Header (SencBox.Header b) b).
Proof.
  intros H. unfold SencBox.Parse, SencBox.parse.
  by rewrite bind_run, Senc_parse_header_short.
Qed.

Lemma Senc_Parse_short b d :
  8 <= len d < 16 ->
  SencBox.Parse b d =
  (Err "senc too short", SencBox.set_Header (header_of (SencBox.Header b) d) b).
Proof.
  intros H. unfold SencBox.Parse, SencBox.parse.
  rewrite bind_run, Senc_parse_header_ok by lia. by repeat mstep.
Qed.

Lemma Senc_read_sample_untouched d subs k :
  untouched (fun b => (SencBox.Header b, SencBox.Flags b,
                       length (SencBox.Samples b)))
            (SencBox.read_sample d subs k).
Proof.
  assert (forall i f,
            untouched (fun b => (SencBox.Header b, SencBox.Flags b,
                                 length (SencBox.Samples b)))
                      (SencBox.modify_sample i f)) as Hmod.
  { intros i f. apply untouched_modify_self. intros b.
    cbn [SencBox.set_Samples SencBox.Header SencBox.Flags SencBox.Samples].
    by rewrite length_alter. }
  unfold SencBox.read_sample.
  do 4 (apply untouched_bind; [first [apply Hmod | untouched_step]|intros]).
  destruct subs; [|apply untouched_ret].
  unfold SencBox.read_subsamples.
  do 4 (apply untouched_bind; [first [apply Hmod | untouched_step]|intros]).
  apply untouched_for. intros j. unfold SencBox.read_subsample.
  do 4 (apply untouched_bind; [first [apply Hmod | untouched_step]|intros]).
  apply Hmod.
Qed.

(** C5. Whenever [SencBox.Parse] accepts a buffer: [Flags] is the low
    24 bits of the word at offset 8; [Samples] has exactly as many
    entries as the 32-bit sample count at offset 12 declares; with bit
    [0x000002] of the flags clear, every entry has an empty subsample
    list and the IVs are the consecutive 8-byte runs from offset 16;
    with the bit set, the entries follow one another from offset 16,
    each with its 8-byte IV, a subsample list whose length is the
    16-bit count read for that entry, and subsample [j] equal to the
    [{clear uint16, protected uint32}] pair at its place in the
    buffer. *)
Theorem SencBox_Parse_samples b d b' :
  SencBox.Parse b d = (Ok tt, b') ->
  SencBox.Flags b' = Z.land (u32_at d 8) 16777215 /\
  Z.of_nat (length (SencBox.Samples b')) = u32_at d 12 /\
  (Z.land (SencBox.Flags b') 2 = 0 ->
     Forall (fun s => Subsamples s = []) (SencBox.Samples b') /\
     ivs_at d 16 (SencBox.Samples b')) /\
  (Z.land (SencBox.Flags b') 2 <> 0 -> entries_at d 16 (SencBox.Samples b')).
Proof.
  intros HP. pose proof (u32_at_range d 12) as HN.
  destruct (Z.lt_ge_cases (len d) 8) as [H8|H8];
    [by rewrite Senc_Parse_no_header in HP|].
  destruct (Z.lt_ge_cases (len d) 16) as [H16|H16];
    [by rewrite Senc_Parse_short in HP|].
  unfold SencBox.Parse in HP. rewrite Senc_parse_prefix in HP by done.
  set (subs := negb (Z.land (Z.land (u32_at d 8) 16777215) 2 =? 0)) in HP.
  pose proof (untouched_for _ (Z.to_nat (u32_at d 12)) 0 _
                (Senc_read_sample_untouched d subs)
                (Frame (senc_fixed b d) (Parser d 16))) as Hkeep.
  destruct (for_ _ _ _ _) as [r st] eqn:Hrun.
  injection HP as -> <-. cbn [snd self senc_fixed] in Hkeep.
  cbn [SencBox.Header SencBox.Flags SencBox.Samples SencBox.set_Samples
       SencBox.set_Flags SencBox.set_Header] in Hkeep.
  injection Hkeep as _ HF _.
  apply (Senc_read_samples_ok d subs _ [] 0 16) in Hrun;
    [|done|lia|lia|done].
  cbn [app] in Hrun. rewrite Hrun, HF, length_samples_at.
  split; [done|]. split; [lia|]. split.
  - intros Hclear. assert (subs = false) as ->.
    { subst subs. by rewrite Hclear. }
    split; [eapply ivs_at_no_subsamples|]; apply samples_at_ivs.
  - intros Hset. assert (subs = true) as ->.
    { subst subs. apply negb_true_iff. by apply Z.eqb_neq. }
    apply samples_at_entries.
Qed.

Lemma SencBox_Parse_samples_witness :
  (Z.of_nat (length (SencBox.Samples (snd (SencBox.Parse SencBox.zero senc_two)))) = 2 /\
   entries_at senc_two 16 (SencBox.Samples (snd (SencBox.Parse SencBox.zero senc_two)))) /\
  Forall (fun s => Subsamples s = [])
    (SencBox.Samples (snd (SencBox.Parse SencBox.zero senc_plain))).
Proof.
  split.
  - destruct (SencBox_Parse_samples SencBox.zero senc_two
                (snd (SencBox.Parse SencBox.zero senc_two)))
      as (HF & HL & _ & HE).
    + vm_compute. reflexivity.
    + split; [exact HL|]. apply HE. rewrite HF. vm_compute. discriminate.
  - destruct (SencBox_Parse_samples SencBox.zero senc_plain
                (snd (SencBox.Parse SencBox.zero senc_plain)))
      as (HF & _ & HC & _).
    + vm_compute. reflexivity.
    + apply HC. rewrite HF. vm_compute. reflexivity.
Defined.

(** ** Failed parses: claim C8 *)

Ltac run_untouched :=
  repeat first
    [ untouched_step
    | match goal with
      | |- untouched _ (if ?c then _ else _) => destruct c
      | |- untouched _ (PsshBox.read_kid _) => unfold PsshBox.read_kid
      | |- untouched _ (PsshBox.parse_kids _) => unfold PsshBox.parse_kids
      | |- untouched _ (TencBox.parse_v0 _) => unfold TencBox.parse_v0
      end ].

Ltac run_err_keeps :=
  repeat first
    [ apply err_keeps_modify_self
    | apply err_keeps_ret
    | apply err_keeps_bind; [solve [run_untouched]|intros]
    | match goal with
      | |- err_keeps _ (if ?c then _ else _) => destruct c
      | |- err_keeps _ (PsshBox.parse_data _) => unfold PsshBox.parse_data
      | |- err_keeps _ (TencBox.parse_v0 _) => unfold TencBox.parse_v0
      | |- err_keeps _ (TencBox.parse_constant_iv _) =>
          unfold TencBox.parse_constant_iv
      end ].

Lemma Pssh_rest_fixed_fields d v :
  untouched (fun b => (PsshBox.Header b, PsshBox.Version b, PsshBox.Flags b,
                       PsshBox.SystemID b))
    ((if 0 <? u8 v then PsshBox.parse_kids d else mret tt);;
     PsshBox.parse_data d).
Proof. unfold PsshBox.parse_data. run_untouched. Qed.

Lemma Pssh_rest_Data d v :
  err_keeps PsshBox.Data
    ((if 0 <? u8 v then PsshBox.parse_kids d else mret tt);;
     PsshBox.parse_data d).
Proof. run_err_keeps. Qed.

Lemma Tenc_rest_fixed_fields d v :
  untouched (fun b => (TencBox.Header b, TencBox.Version b, TencBox.Flags b))
    (if u8 v =? 0 then TencBox.parse_v0 d else mret tt).
Proof. unfold TencBox.parse_constant_iv. run_untouched. Qed.

Lemma Tenc_rest_DefaultConstantIV d v :
  err_keeps TencBox.DefaultConstantIV
    (if u8 v =? 0 then TencBox.parse_v0 d else mret tt).
Proof. run_err_keeps. Qed.

Lemma Tenc_parse_header_short b d pp :
  len d < 8 ->
  TencBox.parse_header d (Frame b pp) =
  (Err "box header too short",
   Frame (TencBox.set_Header (TencBox.Header b) b) pp).
Proof.
  intros H. unfold TencBox.parse_header, BoxHeader_Parse. cbn [self p].
  by ltb_decide.
Qed.

Lemma Tenc_Parse_no_header b d :
  len d < 8 ->
  TencBox.Parse b d =
  (Err "box header too short", TencBox.set_Header (TencBox.Header b) b).
Proof.
  intros H. unfold TencBox.Parse, TencBox.parse.
  by rewrite bind_run, Tenc_parse_header_short.
Qed.

Lemma Tenc_Parse_short b d :
  8 <= len d < 12 ->
  TencBox.Parse b d =
  (Err "tenc box too short for version/flags",
   TencBox.set_Header (header_of (TencBox.Header b) d) b).
Proof.
  intros H. unfold TencBox.Parse, TencBox.parse.
  rewrite bind_run, Tenc_parse_header_ok by lia. by repeat mstep.
Qed.

(** C8, as the code has it.  A parser writes its receiver in place
    while it reads, so a failed parse leaves it partly populated.  When
    the buffer is too short for the first length check (28 bytes for
    [pssh], 12 for [tenc], 16 for [senc]) nothing but [Header] can
    have changed.  On any later error the fields read before the
    failing check are stored already: [pssh] header, version, flags
    and system ID; [tenc] header, version and flags; [senc] header,
    flags and a sample table of the declared length.  Only what is
    read last is never written by a failed parse: [pssh] [Data] and
    [tenc] [DefaultConstantIV] keep the receiver's value. *)
Theorem Parse_error_receiver :
  (forall b d e b', PsshBox.Parse b d = (Err e, b') ->
     PsshBox.Data b' = PsshBox.Data b /\
     (len d < 28 -> b' = PsshBox.set_Header (PsshBox.Header b') b) /\
     (28 <= len d ->
        PsshBox.Header b' = header_of (PsshBox.Header b) d /\
        PsshBox.Version b' = byte_at d 8 /\
        PsshBox.Flags b' = copy (PsshBox.Flags b) (drop 1 (slice d 8 12)) /\
        PsshBox.SystemID b' = copy (PsshBox.SystemID b) (slice d 12 28))) /\
  (forall b d e b', TencBox.Parse b d = (Err e, b') ->
     TencBox.DefaultConstantIV b' = TencBox.DefaultConstantIV b /\
     (len d < 12 -> b' = TencBox.set_Header (TencBox.Header b') b) /\
     (12 <= len d ->
        TencBox.Header b' = header_of (TencBox.Header b) d /\
        TencBox.Version b' = byte_at d 8 /\
        TencBox.Flags b' = Z.land (u32_at d 8) 16777215)) /\
  (forall b d e b', SencBox.Parse b d = (Err e, b') ->
     (len d < 16 -> b' = SencBox.set_Header (SencBox.Header b') b) /\
     (16 <= len d ->
        SencBox.Header b' = header_of (SencBox.Header b) d /\
        SencBox.Flags b' = Z.land (u32_at d 8) 16777215 /\
        Z.of_nat (length (SencBox.Samples b')) = u32_at d 12)).
Proof.
  split; [|split].
  - intros b d e b' HP.
    destruct (Z.lt_ge_cases (len d) 8) as [H8|H8].
    { rewrite Pssh_Parse_no_header in HP by done. injection HP as _ <-.
      split; [done|]. split; [done|lia]. }
    destruct (Z.lt_ge_cases (len d) 28) as [H28|H28].
    { rewrite Pssh_Parse_short in HP by done. injection HP as _ <-.
      split; [done|]. split; [done|lia]. }
    unfold PsshBox.Parse in HP. rewrite Pssh_parse_prefix in HP by done.
    pose proof (Pssh_rest_fixed_fields d (byte_at d 8)
                  (Frame (pssh_fixed b d) (Parser d 28))) as Hfix.
    pose proof (Pssh_rest_Data d (byte_at d 8)
                  (Frame (pssh_fixed b d) (Parser d 28))) as Hdata.
    match type of Hfix with context [snd ?x] => destruct x as [r st] end.
    injection HP as -> <-. cbn [snd self] in Hfix.
    specialize (Hdata e st eq_refl). cbn [self] in Hdata.
    injection Hfix as -> -> -> ->.
    split; [done|]. split; [lia|]. done.
  - intros b d e b' HP.
    destruct (Z.lt_ge_cases (len d) 8) as [H8|H8].
    { rewrite Tenc_Parse_no_header in HP by done. injection HP as _ <-.
      split; [done|]. split; [done|lia]. }
    destruct (Z.lt_ge_cases (len d) 12) as [H12|H12].
    { rewrite Tenc_Parse_short in HP by done. injection HP as _ <-.
      split; [done|]. split; [done|lia]. }
    unfold TencBox.Parse in HP. rewrite Tenc_parse_prefix in HP by done.
    match type of HP with
    | context [_ (Frame ?b1 ?pp)] =>
        pose proof (Tenc_rest_fixed_fields d (byte_at d 8) (Frame b1 pp)) as Hfix;
        pose proof (Tenc_rest_DefaultConstantIV d (byte_at d 8) (Frame b1 pp))
          as Hiv
    end.
    match type of Hfix with context [snd ?x] => destruct x as [r st] end.
    injection HP as -> <-. cbn [snd self] in Hfix.
    specialize (Hiv e st eq_refl). cbn [self] in Hiv.
    injection Hfix as -> -> ->.
    split; [done|]. split; [lia|]. done.
  - intros b d e b' HP.
    destruct (Z.lt_ge_cases (len d) 8) as [H8|H8].
    { rewrite Senc_Parse_no_header in HP by done. injection HP as _ <-.
      split; [done|lia]. }
    destruct (Z.lt_ge_cases (len d) 16) as [H16|H16].
    { rewrite Senc_Parse_short in HP by done. injection HP as _ <-.
      split; [done|lia]. }
    pose proof (u32_at_range d 12) as HN.
    unfold SencBox.Parse in HP. rewrite Senc_parse_prefix in HP by done.
    match type of HP with
    | context [for_ ?n 0 (SencBox.read_sample d ?subs) ?st0] =>
        pose proof (untouched_for _ n 0 _
                      (Senc_read_sample_untouched d subs) st0) as Hkeep
    end.
    destruct (for_ _ _ _ _) as [r st].
    injection HP as -> <-. cbn [snd self senc_fixed] in Hkeep.
    cbn [SencBox.Header SencBox.Flags SencBox.Samples SencBox.set_Samples
         SencBox.set_Flags SencBox.set_Header] in Hkeep.
    injection Hkeep as -> -> ->. rewrite length_replicate.
    split; [lia|]. intros _. split; [done|]. split; [done|lia].
Qed.

Lemma Parse_error_receiver_witness :
  PsshBox.Data (snd (PsshBox.Parse PsshBox.zero pssh_cut)) = [] /\
  PsshBox.Version (snd (PsshBox.Parse PsshBox.zero pssh_cut)) = x01 /\
  TencBox.DefaultConstantIV (snd (TencBox.Parse TencBox.zero (take 31 tenc_tail))) = [] /\
  Z.of_nat (length (SencBox.Samples (snd (SencBox.Parse SencBox.zero (take 45 senc_two))))) = 2.
Proof.
  destruct Parse_error_receiver as (HPssh & HTenc & HSenc).
  split; [|split; [|split]].
  - apply (HPssh PsshBox.zero pssh_cut "pssh too short for KID count"%string).
    vm_compute. reflexivity.
  - apply (HPssh PsshBox.zero pssh_cut "pssh too short for KID count"%string);
      vm_compute; (reflexivity || discriminate).
  - apply (HTenc TencBox.zero (take 31 tenc_tail)
             "tenc v0 box too short for required fields"%string).
    vm_compute. reflexivity.
  - apply (HSenc SencBox.zero (take 45 senc_two)
             "senc truncated while reading subsample"%string);
      vm_compute; (reflexivity || discriminate).
Defined.

(** C8 as claimed fails: a version-1 [pssh] buffer cut after the
    system ID makes [Parse] return an error, and the receiver it was
    called on no longer has its prior state (header, version and
    system ID come from the failed parse). *)
Lemma Parse_error_receiver_counterexample :
  ~ (forall b d e b', PsshBox.Parse b d = (Err e, b') -> b' = b).
Proof.
  intros H.
  specialize (H PsshBox.zero pssh_cut "pssh too short for KID count"%string
                (snd (PsshBox.Parse PsshBox.zero pssh_cut))).
  assert (PsshBox.Version (snd (PsshBox.Parse PsshBox.zero pssh_cut)) =
          PsshBox.Version PsshBox.zero) as HV.
  { f_equal. apply H. vm_compute. reflexivity. }
  vm_compute in HV. discriminate HV.
Qed.


(** * Further properties of the same code *)

(** ** The decryptor on a subsample layout that fits the sample *)

Lemma mask_index_below subs : forall off used i,
  (forall s, s ∈ subs -> 0 <= BytesOfClearData s /\ 0 <= BytesOfProtectedData s) ->
  i < off -> mask_index subs off used i = None.
Proof.
  induction subs as [|s rest IH]; intros off used i Hnn Hi; [done|].
  cbn [mask_index].
  destruct (Hnn s) as [Hc Hp]; [by left|].
  assert ((off + BytesOfClearData s <=? i) = false) as ->
    by (apply Z.leb_gt; lia).
  cbn [andb]. apply IH; [|lia].
  intros s' Hs'. apply Hnn. by right.
Qed.

Lemma starts_within_nonneg subs : forall off n,
  starts_within subs off n ->
  forall s, s ∈ subs -> 0 <= BytesOfClearData s /\ 0 <= BytesOfProtectedData s.
Proof.
  induction subs as [|s0 rest IH]; intros off n H s Hs.
  - by apply elem_of_nil in Hs.
  - destruct H as (Hc & Hp & _ & Hrest).
    apply elem_of_cons in Hs as [->|Hs]; [done|]. by eapply IH.
Qed.

Lemma decrypt_subsamples_layout subs : forall stream off sample,
  0 <= off -> starts_within subs off (len sample) ->
  exists out,
    decrypt_subsamples subs stream off sample = (Ok tt, out) /\
    length out = length sample /\
    forall (i : nat) x, sample !! i = Some x ->
      out !! i =
      Some (match mask_index subs off (Z.of_nat (s_pos stream)) (Z.of_nat i) with
            | Some j => byte_xor x (keystream_byte (s_block stream) (s_iv stream)
                                      (Z.to_nat j))
            | None => x
            end).
Proof.
  induction subs as [|sub rest IH]; intros stream off sample Hoff Hfit.
  - exists sample. cbn [decrypt_subsamples mask_index]. by repeat split.
  - destruct Hfit as (Hc & Hp & Hstart & Hrest).
    set (start := off + BytesOfClearData sub) in *.
    destruct (Z.eq_dec (BytesOfProtectedData sub) 0) as [Hz|Hnz].
    + cbn [decrypt_subsamples]. rewrite Hz. change (0 <? 0) with false. cbv iota.
      rewrite Hz, Z.add_0_r in Hrest.
      destruct (IH stream start sample) as (out & Hrun & Hlen & Hout);
        [lia | done |].
      exists out. split; [done|]. split; [done|].
      intros i x Hx. rewrite (Hout i x Hx). cbn [mask_index]. fold start.
      rewrite Hz, !Z.add_0_r.
      assert (((start <=? Z.of_nat i) && (Z.of_nat i <? start)) = false) as ->.
      { apply andb_false_iff.
        destruct (Z.leb_spec start (Z.of_nat i)); [right|by left].
        apply Z.ltb_ge. lia. }
      done.
    + set (hi := Z.min (start + BytesOfProtectedData sub) (len sample)).
      rewrite (decrypt_subsamples_protected sub rest stream off sample start hi)
        by (subst hi; (done || lia)).
      assert (start <= hi <= len sample) as Hhi by (subst hi; lia).
      set (chunk := snd (XORKeyStream stream (slice sample start hi))).
      assert (length chunk = Z.to_nat (hi - start)) as Hchunk.
      { subst chunk. rewrite length_XORKeyStream, length_slice; lia. }
      set (sample' := splice sample start hi chunk).
      assert (length sample' = length sample) as Hlen'
        by (subst sample'; apply length_splice; lia).
      assert (forall (i : nat) x, sample !! i = Some x ->
                sample' !! i =
                Some (if decide (Z.to_nat start <= i < Z.to_nat hi)%nat
                      then byte_xor x (keystream_byte (s_block stream) (s_iv stream)
                                         (s_pos stream + (i - Z.to_nat start)))
                      else x)) as Hs'.
      { intros i x Hx. subst sample'. rewrite lookup_splice by lia.
        case_decide; [|done]. subst chunk.
        rewrite lookup_XORKeyStream, lookup_slice. case_decide; [|lia].
        replace (Z.to_nat start + (i - Z.to_nat start))%nat with i by lia.
        by rewrite Hx. }
      destruct (Z.le_gt_cases (start + BytesOfProtectedData sub) (len sample))
        as [Hin|Hover].
      * assert (hi = start + BytesOfProtectedData sub) as Hhi' by (subst hi; lia).
        destruct (IH (fst (XORKeyStream stream (slice sample start hi))) hi sample')
          as (out & Hrun & Hlen & Hout).
        { lia. }
        { unfold len. rewrite Hlen'. fold (len sample). by rewrite Hhi'. }
        exists out. split; [done|]. split; [lia|].
        intros i x Hx. rewrite (Hout i _ (Hs' i x Hx)). f_equal.
        cbn [mask_index]. fold start. rewrite <- Hhi'.
        unfold XORKeyStream. cbn [fst s_block s_iv s_pos].
        rewrite length_slice by lia.
        destruct (decide (Z.to_nat start <= i < Z.to_nat hi)%nat) as [Hi|Hi].
        -- assert (((start <=? Z.of_nat i) && (Z.of_nat i <? hi)) = true) as ->.
           { apply andb_true_iff. split; [apply Z.leb_le | apply Z.ltb_lt]; lia. }
           rewrite mask_index_below; [| | lia].
           ++ do 2 f_equal. lia.
           ++ by eapply starts_within_nonneg.
        -- assert (((start <=? Z.of_nat i) && (Z.of_nat i <? hi)) = false) as ->.
           { apply andb_false_iff.
             destruct (Z.leb_spec start (Z.of_nat i)); [right|by left].
             apply Z.ltb_ge. lia. }
           replace (Z.of_nat (s_pos stream + Z.to_nat (hi - start)))
             with (Z.of_nat (s_pos stream) + BytesOfProtectedData sub) by lia.
           done.
      * assert (hi = len sample) as Hhi' by (subst hi; lia).
        assert (rest = []) as ->.
        { destruct rest as [|s' rest']; [done|].
          destruct Hrest as (Hc' & _ & Hs & _). lia. }
        exists sample'. cbn [decrypt_subsamples]. split; [done|]. split; [done|].
        intros i x Hx. rewrite (Hs' i x Hx). f_equal.
        cbn [mask_index]. fold start.
        pose proof (lookup_lt_Some _ _ _ Hx) as Hilt.
        destruct (decide (Z.to_nat start <= i < Z.to_nat hi)%nat) as [Hi|Hi].
        -- assert (((start <=? Z.of_nat i) &&
                     (Z.of_nat i <? start + BytesOfProtectedData sub)) = true) as ->.
           { apply andb_true_iff. split; [apply Z.leb_le | apply Z.ltb_lt];
               unfold len in *; lia. }
           do 2 f_equal. lia.
        -- assert (((start <=? Z.of_nat i) &&
                     (Z.of_nat i <? start + BytesOfProtectedData sub)) = false) as ->.
           { apply andb_false_iff. left. apply Z.leb_gt. unfold len in *. lia. }
           done.
Qed.

(** X1. When the stream can be created (the IV, padded if it has 8
    bytes, is one block long) and the declared subsample layout fits
    the sample - no negative length, every protected range starting at
    or before the end of the sample, only the last one running past it
    - [DecryptSample] returns normally, and byte [i] of the result is
    the input byte, exclusive-or key-stream byte [j] when [i] is the
    [j]-th protected byte counted over all protected ranges, unchanged
    when [i] is a clear byte: the key stream runs on from one protected
    range to the next, and an overrunning last range is cut at the end
    of the sample. *)
Theorem DecryptSample_layout sample info block :
  IV info <> [] ->
  len (pad_iv (IV info)) = BlockSize block ->
  Subsamples info <> [] ->
  starts_within (Subsamples info) 0 (len sample) ->
  exists out,
    DecryptSample sample (Some info) block = (Ok tt, out) /\
    length out = length sample /\
    forall (i : nat) x, sample !! i = Some x ->
      out !! i =
      Some (match mask_index (Subsamples info) 0 0 (Z.of_nat i) with
            | Some j => byte_xor x (keystream_byte block (pad_iv (IV info))
                                      (Z.to_nat j))
            | None => x
            end).
Proof.
  intros Hiv Hbs Hsubs Hfit. unfold DecryptSample.
  assert ((len (IV info) =? 0) = false) as ->.
  { apply Z.eqb_neq. unfold len. destruct (IV info); [done | cbn; lia]. }
  unfold NewCTR. rewrite Hbs, Z.eqb_refl.
  assert ((len (Subsamples info) =? 0) = false) as ->.
  { apply Z.eqb_neq. unfold len. destruct (Subsamples info); [done | cbn; lia]. }
  destruct (decrypt_subsamples_layout (Subsamples info)
              {| s_block := block; s_iv := pad_iv (IV info); s_pos := 0 |}
              0 sample) as (out & Hrun & Hlen & Hout); [lia | done |].
  exists out. split; [done|]. split; [done|]. exact Hout.
Qed.

Lemma DecryptSample_layout_witness :
  exists out,
    DecryptSample (replicate 12 x00)
      (Some {| IV := iv8; Subsamples := ragged_subsamples |}) pad_block
      = (Ok tt, out) /\
    length out = 12%nat /\
    out !! 2%nat = Some x00 /\
    out !! 9%nat =
      Some (byte_xor x00 (keystream_byte pad_block (pad_iv iv8) 4)).
Proof.
  destruct (DecryptSample_layout (replicate 12 x00)
              {| IV := iv8; Subsamples := ragged_subsamples |} pad_block)
    as (out & Hrun & Hlen & Hout).
  - discriminate.
  - reflexivity.
  - discriminate.
  - cbn. unfold len. cbn. lia.
  - exists out. split; [exact Hrun|]. split; [exact Hlen|]. split.
    + apply (Hout 2%nat x00). reflexivity.
    + apply (Hout 9%nat x00). reflexivity.
Defined.

Lemma pad_iv_8 iv :
  len iv = 8 -> pad_iv iv = iv ++ replicate 8 x00.
Proof.
  intros H. unfold pad_iv, copy. rewrite H. cbn [Z.eqb Pos.eqb].
  assert (length iv = 8%nat) as Hl by (unfold len in H; lia).
  rewrite length_replicate, Hl, take_ge by lia. done.
Qed.

(** X2. An 8-byte stored IV decrypts exactly as the 16-byte IV made of
    it and 8 zero bytes: same outcome and same bytes, for every sample,
    subsample list and cipher. *)
Theorem DecryptSample_iv_padding sample iv subs block :
  len iv = 8 ->
  DecryptSample sample (Some {| IV := iv; Subsamples := subs |}) block =
  DecryptSample sample
    (Some {| IV := iv ++ replicate 8 x00; Subsamples := subs |}) block.
Proof.
  intros H. unfold DecryptSample. cbn [IV Subsamples].
  assert (len (iv ++ replicate 8 x00) = 16) as H16.
  { unfold len in *. rewrite length_app, length_replicate. lia. }
  rewrite H, H16. cbn [Z.eqb Pos.eqb].
  rewrite (pad_iv_8 iv H).
  unfold pad_iv. rewrite H16. cbn [Z.eqb Pos.eqb]. done.
Qed.

Lemma DecryptSample_iv_padding_witness :
  DecryptSample (replicate 40 x00)
    (Some {| IV := iv8; Subsamples := two_subsamples |}) pad_block =
  DecryptSample (replicate 40 x00)
    (Some {| IV := iv8 ++ replicate 8 x00; Subsamples := two_subsamples |})
    pad_block.
Proof. apply (DecryptSample_iv_padding _ iv8). reflexivity. Defined.

(** ** TENC: outcome, fixed fields, tail *)

Lemma Tenc_parse_constant_iv_run b d :
  32 <= len d ->
  TencBox.parse_constant_iv d (Frame b (Parser d 32)) =
  if len d <? 33
  then (Err "tenc box truncated before constant IV size", Frame b (Parser d 32))
  else if len d <? 33 + u8 (byte_at d 32)
       then (Err "tenc box truncated, not enough data for constant IV",
             Frame (TencBox.set_DefaultConstantIVSize (byte_at d 32) b)
                   (Parser d 33))
       else (Ok tt,
             Frame (TencBox.set_DefaultConstantIV
                      (slice d 33 (33 + u8 (byte_at d 32)))
                      (TencBox.set_DefaultConstantIVSize (byte_at d 32) b))
                   (Parser d (33 + u8 (byte_at d 32)))).
Proof.
  intros H. unfold TencBox.parse_constant_iv. pose proof (u8_range (byte_at d 32)).
  rewrite bind_run. cbn [get_offset p offset]. rewrite bind_run.
  change (32 + 1) with 33.
  destruct (Z.ltb_spec (len d) 33); [done|].
  cbn [fail_if mret M_ret]. repeat mstep.
  cbn [TencBox.set_DefaultConstantIVSize TencBox.DefaultConstantIVSize].
  destruct (Z.ltb_spec (len d) (33 + u8 (byte_at d 32))); [done|].
  cbn [fail_if mret M_ret]. repeat mstep. done.
Qed.

Lemma Tenc_Parse_v0_short b d :
  12 <= len d < 32 -> byte_at d 8 = x00 ->
  TencBox.Parse b d =
  (Err "tenc v0 box too short for required fields",
   TencBox.set_Flags (Z.land (u32_at d 8) 16777215)
     (TencBox.set_Version x00
        (TencBox.set_Header (header_of (TencBox.Header b) d) b))).
Proof.
  intros H Hv. unfold TencBox.Parse. rewrite Tenc_parse_prefix by lia.
  rewrite Hv. change (u8 x00 =? 0) with true. cbv iota.
  unfold TencBox.parse_v0. by repeat mstep.
Qed.

(** The receiver once the fixed version-0 fields are stored. *)
Lemma Tenc_Parse_v0_run b d :
  32 <= len d -> byte_at d 8 = x00 ->
  TencBox.Parse b d =
  let b1 :=
    TencBox.set_DefaultKID (copy (TencBox.DefaultKID b) (slice d 16 32))
      (TencBox.set_DefaultPerSampleIVSize (byte_at d 15)
        (TencBox.set_DefaultIsProtected (byte_at d 14)
          (TencBox.set_Flags (Z.land (u32_at d 8) 16777215)
            (TencBox.set_Version x00
              (TencBox.set_Header (header_of (TencBox.Header b) d) b))))) in
  if tenc_wants_tail d
  then let '(r, st) := TencBox.parse_constant_iv d (Frame b1 (Parser d 32)) in
       (r, self st)
  else (Ok tt, b1).
Proof.
  intros H Hv. unfold TencBox.Parse. rewrite Tenc_parse_prefix by lia.
  rewrite Hv. change (u8 x00 =? 0) with true. cbv iota.
  rewrite Tenc_parse_v0_fixed by done. cbv zeta.
  cbn [TencBox.Header TencBox.set_Flags TencBox.set_Version TencBox.set_Header
       header_of Size TencBox.DefaultKID].
  unfold tenc_wants_tail.
  destruct ((u8 (byte_at d 14) =? 1) && (u8 (byte_at d 15) =? 0)); [|done].
  cbn [andb]. by destruct (32 <? u32_at d 0).
Qed.

Lemma Tenc_Parse_other_run b d :
  12 <= len d -> byte_at d 8 <> x00 ->
  TencBox.Parse b d =
  (Ok tt,
   TencBox.set_Flags (Z.land (u32_at d 8) 16777215)
     (TencBox.set_Version (byte_at d 8)
        (TencBox.set_Header (header_of (TencBox.Header b) d) b))).
Proof.
  intros H Hv. unfold TencBox.Parse. rewrite Tenc_parse_prefix by done.
  assert ((u8 (byte_at d 8) =? 0) = false) as ->; [|done].
  apply Z.eqb_neq. intros H0. by apply Hv, u8_zero_inv.
Qed.

(** X3. [TencBox.Parse] never panics, and it succeeds on exactly the
    buffers that hold what the layout requires: 12 bytes when the
    version is not 0; for version 0 the 32 fixed bytes and, when
    isProtected is 1, perSampleIVSize is 0 and the declared size is
    above 32, also the size byte at offset 32 and that many IV bytes.
    Every other buffer is answered with an error. *)
Theorem TencBox_Parse_outcome b d :
  (fst (TencBox.Parse b d) = Ok tt <-> tenc_accepts d) /\
  (~ tenc_accepts d -> exists e, fst (TencBox.Parse b d) = Err e).
Proof.
  unfold tenc_accepts.
  destruct (Z.lt_ge_cases (len d) 8) as [H8|H8].
  { rewrite Tenc_Parse_no_header by done. cbn [fst].
    split; [split; [done | lia] | eauto]. }
  destruct (Z.lt_ge_cases (len d) 12) as [H12|H12].
  { rewrite Tenc_Parse_short by done. cbn [fst].
    split; [split; [done | lia] | eauto]. }
  destruct (Byte.byte_eq_dec (byte_at d 8) x00) as [Hv|Hv].
  - destruct (Z.lt_ge_cases (len d) 32) as [H32|H32].
    { rewrite Tenc_Parse_v0_short by done. cbn [fst].
      split; [split; [done | intros [_ Hc]; destruct (Hc Hv); lia] | eauto]. }
    rewrite Tenc_Parse_v0_run by done. cbv zeta.
    destruct (tenc_wants_tail d).
    + rewrite Tenc_parse_constant_iv_run by done.
      pose proof (u8_range (byte_at d 32)).
      destruct (Z.ltb_spec (len d) 33);
        [|destruct (Z.ltb_spec (len d) (33 + u8 (byte_at d 32)))]; cbn [fst].
      * split; [split; [done | intros [_ Hc]; destruct (Hc Hv) as [_ Ht];
                                specialize (Ht eq_refl); lia] | eauto].
      * split; [split; [done | intros [_ Hc]; destruct (Hc Hv) as [_ Ht];
                                specialize (Ht eq_refl); lia] | eauto].
      * split; [split; [intros _; split; [lia | intros _; split; [lia|]]; by intros _
                       | done] |].
        intros Hn. exfalso. apply Hn. split; [lia|]. intros _. split; [lia|done].
    + cbn [fst]. split; [split; [intros _; split; [lia|]; intros _; split; [lia|done]
                                |done] |].
      intros Hn. exfalso. apply Hn. split; [lia|]. intros _. split; [lia|done].
  - rewrite Tenc_Parse_other_run by done. cbn [fst].
    split; [split; [intros _; split; [lia | done] | done] |].
    intros Hn. exfalso. apply Hn. split; [lia | done].
Qed.

Lemma TencBox_Parse_outcome_witness :
  fst (TencBox.Parse TencBox.zero tenc_tail) = Ok tt /\
  exists e, fst (TencBox.Parse TencBox.zero (take 35 tenc_tail)) = Err e.
Proof.
  split.
  - apply (TencBox_Parse_outcome TencBox.zero tenc_tail).
    split; [vm_compute; discriminate|]. intros _.
    split; [vm_compute; discriminate|]. intros _. vm_compute. discriminate.
  - apply (TencBox_Parse_outcome TencBox.zero (take 35 tenc_tail)).
    intros [_ H]. destruct (H eq_refl) as [_ Ht].
    specialize (Ht eq_refl). vm_compute in Ht. by apply Ht.
Defined.

Lemma Tenc_constant_iv_fixed d :
  untouched (fun b => (TencBox.Header b, TencBox.Version b, TencBox.Flags b,
                       TencBox.DefaultIsProtected b,
                       TencBox.DefaultPerSampleIVSize b, TencBox.DefaultKID b))
    (TencBox.parse_constant_iv d).
Proof. unfold TencBox.parse_constant_iv. run_untouched. Qed.

(** X4. For a version-0 [tenc] buffer of at least 32 bytes, whether or
    not the constant-IV tail then parses, the receiver holds the fixed
    fields of the box: isProtected is the byte at offset 14,
    perSampleIVSize the byte at offset 15, and the default key ID is
    the 16 bytes at offsets 16..31 (the two reserved bytes at 12 and 13
    are skipped). *)
Theorem TencBox_Parse_fixed_fields b d :
  32 <= len d -> byte_at d 8 = x00 ->
  length (TencBox.DefaultKID b) = 16%nat ->
  TencBox.Version (snd (TencBox.Parse b d)) = x00 /\
  TencBox.Flags (snd (TencBox.Parse b d)) = Z.land (u32_at d 8) 16777215 /\
  TencBox.DefaultIsProtected (snd (TencBox.Parse b d)) = byte_at d 14 /\
  TencBox.DefaultPerSampleIVSize (snd (TencBox.Parse b d)) = byte_at d 15 /\
  TencBox.DefaultKID (snd (TencBox.Parse b d)) = slice d 16 32 /\
  length (TencBox.DefaultKID (snd (TencBox.Parse b d))) = 16%nat.
Proof.
  intros H Hv HK. rewrite Tenc_Parse_v0_run by done. cbv zeta.
  assert (copy (TencBox.DefaultKID b) (slice d 16 32) = slice d 16 32) as HKID.
  { apply copy_same_length. rewrite HK, length_slice; lia. }
  assert (length (slice d 16 32) = 16%nat) as Hl by (rewrite length_slice; lia).
  destruct (tenc_wants_tail d).
  - match goal with
    | |- context [TencBox.parse_constant_iv d ?st] =>
        pose proof (Tenc_constant_iv_fixed d st) as Hfix;
        destruct (TencBox.parse_constant_iv d st) as [r st']
    end.
    cbn [snd self] in *.
    cbn [TencBox.Header TencBox.Version TencBox.Flags TencBox.DefaultIsProtected
         TencBox.DefaultPerSampleIVSize TencBox.DefaultKID TencBox.set_DefaultKID
         TencBox.set_DefaultPerSampleIVSize TencBox.set_DefaultIsProtected
         TencBox.set_Flags TencBox.set_Version TencBox.set_Header] in Hfix.
    injection Hfix as _ -> -> -> -> ->. by rewrite HKID.
  - cbn [snd TencBox.Version TencBox.Flags TencBox.DefaultIsProtected
         TencBox.DefaultPerSampleIVSize TencBox.DefaultKID TencBox.set_DefaultKID
         TencBox.set_DefaultPerSampleIVSize TencBox.set_DefaultIsProtected
         TencBox.set_Flags TencBox.set_Version TencBox.set_Header].
    by rewrite HKID.
Qed.

Lemma TencBox_Parse_fixed_fields_witness :
  TencBox.DefaultIsProtected (snd (TencBox.Parse TencBox.zero tenc_tail)) = x01 /\
  TencBox.DefaultKID (snd (TencBox.Parse TencBox.zero tenc_tail)) = replicate 16 xbb.
Proof.
  destruct (TencBox_Parse_fixed_fields TencBox.zero tenc_tail)
    as (_ & _ & HP & _ & HK & _).
  - vm_compute. discriminate.
  - reflexivity.
  - reflexivity.
  - split; [exact HP | exact HK].
Defined.

(** X5. A version-0 [tenc] buffer of at least 32 bytes that does not
    ask for the constant-IV tail - isProtected is not 1, or
    perSampleIVSize is not 0, or the declared size is at most 32 -
    always parses, and [DefaultConstantIVSize] and [DefaultConstantIV]
    stay as the receiver had them, whatever bytes follow offset 32. *)
Theorem TencBox_Parse_no_tail b d :
  32 <= len d -> byte_at d 8 = x00 ->
  u8 (byte_at d 14) <> 1 \/ u8 (byte_at d 15) <> 0 \/ u32_at d 0 <= 32 ->
  fst (TencBox.Parse b d) = Ok tt /\
  TencBox.DefaultConstantIVSize (snd (TencBox.Parse b d)) =
    TencBox.DefaultConstantIVSize b /\
  TencBox.DefaultConstantIV (snd (TencBox.Parse b d)) =
    TencBox.DefaultConstantIV b.
Proof.
  intros H Hv Hno. rewrite Tenc_Parse_v0_run by done. cbv zeta.
  assert (tenc_wants_tail d = false) as ->; [|done].
  unfold tenc_wants_tail.
  destruct Hno as [Hp|[Hs|Hsz]].
  - apply Z.eqb_neq in Hp. by rewrite Hp.
  - apply Z.eqb_neq in Hs. rewrite Hs. by rewrite andb_false_r.
  - assert ((32 <? u32_at d 0) = false) as -> by (apply Z.ltb_ge; lia).
    by rewrite andb_false_r.
Qed.

Lemma TencBox_Parse_no_tail_witness :
  fst (TencBox.Parse TencBox.zero tenc_per_sample) = Ok tt /\
  TencBox.DefaultConstantIV (snd (TencBox.Parse TencBox.zero tenc_per_sample)) = [].
Proof.
  destruct (TencBox_Parse_no_tail TencBox.zero tenc_per_sample) as (HP & _ & HI).
  - vm_compute. discriminate.
  - reflexivity.
  - right. left. vm_compute. discriminate.
  - split; [exact HP | exact HI].
Defined.

(** ** PSSH: outcome, fixed fields, data *)

Lemma drop_slice {A : Type} (l : list A) (lo hi : Z) (k : nat) :
  0 <= lo -> lo + Z.of_nat k <= hi ->
  drop k (slice l lo hi) = slice l (lo + Z.of_nat k) hi.
Proof.
  intros Hlo Hk. unfold slice. rewrite skipn_firstn_comm, drop_drop.
  f_equal; [lia | f_equal; lia].
Qed.

(** X6. For a [pssh] buffer of at least 28 bytes, however the call
    ends, the receiver holds the version byte (offset 8), the three
    flag bytes (offsets 9..11) and the 16-byte system ID (offsets
    12..27) of the buffer. *)
Theorem PsshBox_Parse_fixed_fields b d :
  28 <= len d ->
  length (PsshBox.Flags b) = 3%nat -> length (PsshBox.SystemID b) = 16%nat ->
  PsshBox.Version (snd (PsshBox.Parse b d)) = byte_at d 8 /\
  PsshBox.Flags (snd (PsshBox.Parse b d)) = slice d 9 12 /\
  PsshBox.SystemID (snd (PsshBox.Parse b d)) = slice d 12 28.
Proof.
  intros H HF HS. unfold PsshBox.Parse. rewrite Pssh_parse_prefix by done.
  pose proof (Pssh_rest_fixed_fields d (byte_at d 8)
                (Frame (pssh_fixed b d) (Parser d 28))) as Hfix.
  match type of Hfix with context [snd ?x] => destruct x as [r st] end.
  cbn [snd self] in *. injection Hfix as _ -> -> ->.
  cbn [pssh_fixed PsshBox.Version PsshBox.Flags PsshBox.SystemID
       PsshBox.set_SystemID PsshBox.set_Flags PsshBox.set_Version].
  split; [done|]. split.
  - rewrite (drop_slice d 8 12 1) by lia. change (8 + Z.of_nat 1) with 9.
    apply copy_same_length. rewrite HF, length_slice; lia.
  - apply copy_same_length. rewrite HS, length_slice; lia.
Qed.

Lemma PsshBox_Parse_fixed_fields_witness :
  PsshBox.Version (snd (PsshBox.Parse PsshBox.zero pssh_cut)) = x01 /\
  PsshBox.SystemID (snd (PsshBox.Parse PsshBox.zero pssh_cut)) = replicate 16 xaa.
Proof.
  destruct (PsshBox_Parse_fixed_fields PsshBox.zero pssh_cut) as (HV & _ & HS).
  - vm_compute. discriminate.
  - reflexivity.
  - reflexivity.
  - split; [exact HV | exact HS].
Defined.

Lemma Pssh_Parse_to_data b d :
  28 <= len d ->
  (0 < u8 (byte_at d 8) -> 32 + 16 * u32_at d 28 <= len d) ->
  exists b1,
    PsshBox.Data b1 = PsshBox.Data b /\
    PsshBox.Parse b d =
    let '(r, st) :=
      PsshBox.parse_data d (Frame b1 (Parser d (pssh_data_offset d))) in
    (r, self st).
Proof.
  intros H Hk. unfold pssh_data_offset. pose proof (u8_range (byte_at d 8)).
  destruct (Z.eqb_spec (u8 (byte_at d 8)) 0) as [Hv|Hv].
  - exists (pssh_fixed b d). split; [done|].
    apply Pssh_Parse_v0; [done | by apply u8_zero_inv].
  - eexists. split; [|apply Pssh_Parse_v1_kids; [lia | apply Hk; lia]]. done.
Qed.

(** X7. [PsshBox.Parse] succeeds on exactly the buffers that hold the
    28 fixed bytes, the key-ID count and [16*kidCount] key-ID bytes
    when the version is above 0, the 4-byte data size and the declared
    data bytes.  On success [Data] is the declared number of bytes that
    follow the data-size field. *)
Theorem PsshBox_Parse_success b d :
  (fst (PsshBox.Parse b d) = Ok tt <-> pssh_accepts d) /\
  (forall b', PsshBox.Parse b d = (Ok tt, b') ->
     PsshBox.Data b' =
       slice d (pssh_data_offset d + 4)
               (pssh_data_offset d + 4 + u32_at d (pssh_data_offset d)) /\
     len (PsshBox.Data b') = u32_at d (pssh_data_offset d)).
Proof.
  pose proof (u32_at_range d 28) as HK.
  pose proof (u8_range (byte_at d 8)) as HV.
  assert (28 <= pssh_data_offset d) as Ho28.
  { unfold pssh_data_offset. destruct (_ =? _); lia. }
  pose proof (u32_at_range d (pssh_data_offset d)) as HS.
  destruct (Z.lt_ge_cases (len d) 8) as [H8|H8].
  { rewrite Pssh_Parse_no_header by done. unfold pssh_accepts. cbn [fst].
    split; [split; [done | lia] | done]. }
  destruct (Z.lt_ge_cases (len d) 28) as [H28|H28].
  { rewrite Pssh_Parse_short by done. unfold pssh_accepts. cbn [fst].
    split; [split; [done | lia] | done]. }
  assert ((0 < u8 (byte_at d 8) -> 32 + 16 * u32_at d 28 <= len d) \/
          (0 < u8 (byte_at d 8) /\ len d < 32 + 16 * u32_at d 28)) as [Hfit|[Hv Hno]]
    by lia.
  - destruct (Pssh_Parse_to_data b d H28 Hfit) as (b1 & HD & ->).
    assert (pssh_data_offset d <= len d) as Hole.
    { unfold pssh_data_offset in *. destruct (Z.eqb_spec (u8 (byte_at d 8)) 0); lia. }
    rewrite Pssh_parse_data_run by lia. unfold pssh_accepts.
    destruct (Z.ltb_spec (len d) (pssh_data_offset d + 4));
      [|destruct (Z.ltb_spec (len d)
                    (pssh_data_offset d + 4 + u32_at d (pssh_data_offset d)))];
      cbn [fst self].
    + split; [split; [done | lia] | done].
    + split; [split; [done | lia] | done].
    + split; [split; [lia | done] |]. intros b' [= <-].
      cbn [PsshBox.Data PsshBox.set_Data]. split; [done|].
      unfold len. rewrite length_slice by lia. lia.
  - assert (fst (PsshBox.Parse b d) <> Ok tt) as Hne.
    { destruct (Z.lt_ge_cases (len d) 32) as [H32|H32];
        [by rewrite Pssh_Parse_v1_no_count|].
      destruct (Z.lt_ge_cases (len d) (32 + u32_mul (u32_at d 28) 16)) as [Hc|Hc];
        [by rewrite Pssh_Parse_v1_check|].
      by rewrite Pssh_Parse_v1_overrun. }
    split.
    + split; [done|]. unfold pssh_accepts, pssh_data_offset.
      destruct (Z.eqb_spec (u8 (byte_at d 8)) 0); lia.
    + intros b' HP. rewrite HP in Hne. done.
Qed.

Lemma PsshBox_Parse_success_witness :
  fst (PsshBox.Parse PsshBox.zero pssh_two) = Ok tt /\
  PsshBox.Data (snd (PsshBox.Parse PsshBox.zero pssh_two)) = [x11; x22].
Proof.
  assert (fst (PsshBox.Parse PsshBox.zero pssh_two) = Ok tt) as HOk.
  { apply (PsshBox_Parse_success PsshBox.zero pssh_two).
    vm_compute. repeat split; discriminate. }
  split; [exact HOk|].
  destruct (proj2 (PsshBox_Parse_success PsshBox.zero pssh_two)
              (snd (PsshBox.Parse PsshBox.zero pssh_two))) as [HD _].
  - vm_compute. reflexivity.
  - rewrite HD. vm_compute. reflexivity.
Defined.

(** X8. [PsshBox.Parse] answers every buffer it does not accept with
    an error, and never panics, as long as the version is 0 or the
    key-ID count is below [2^28] (so that [kidCount*16] does not wrap
    in 32 bits). *)
Theorem PsshBox_Parse_no_panic b d :
  u8 (byte_at d 8) = 0 \/ u32_at d 28 < 268435456 ->
  ~ pssh_accepts d ->
  exists e, fst (PsshBox.Parse b d) = Err e.
Proof.
  intros Hsmall Hno.
  pose proof (u32_at_range d 28) as HK.
  pose proof (u8_range (byte_at d 8)) as HV.
  destruct (Z.lt_ge_cases (len d) 8) as [H8|H8];
    [rewrite Pssh_Parse_no_header by done; eauto|].
  destruct (Z.lt_ge_cases (len d) 28) as [H28|H28];
    [rewrite Pssh_Parse_short by done; eauto|].
  assert ((0 < u8 (byte_at d 8) -> 32 + 16 * u32_at d 28 <= len d) \/
          (0 < u8 (byte_at d 8) /\ len d < 32 + 16 * u32_at d 28)) as [Hfit|[Hv Hover]]
    by lia.
  - destruct (Pssh_Parse_to_data b d H28 Hfit) as (b1 & HD & ->).
    assert (28 <= pssh_data_offset d <= len d) as Hole.
    { unfold pssh_data_offset in *. destruct (Z.eqb_spec (u8 (byte_at d 8)) 0); lia. }
    rewrite Pssh_parse_data_run by lia. unfold pssh_accepts in Hno.
    destruct (Z.ltb_spec (len d) (pssh_data_offset d + 4));
      [|destruct (Z.ltb_spec (len d)
                    (pssh_data_offset d + 4 + u32_at d (pssh_data_offset d)))];
      cbn [fst]; eauto.
    exfalso. apply Hno. lia.
  - destruct (Z.lt_ge_cases (len d) 32) as [H32|H32];
      [rewrite Pssh_Parse_v1_no_count by done; eauto|].
    assert (u32_mul (u32_at d 28) 16 = 16 * u32_at d 28) as Hmul.
    { unfold u32_mul. rewrite Z.mod_small; lia. }
    rewrite Pssh_Parse_v1_check by (rewrite ?Hmul; lia). eauto.
Qed.

Lemma PsshBox_Parse_no_panic_witness :
  exists e, fst (PsshBox.Parse PsshBox.zero (take 60 pssh_two)) = Err e.
Proof.
  apply PsshBox_Parse_no_panic.
  - right. vm_compute. reflexivity.
  - intros (_ & _ & H). vm_compute in H. by apply H.
Defined.

(** ** SENC: outcome, truncation, use of the entries *)

Lemma Senc_read_subsample_loop_runs d i n : forall j o b,
  0 <= o -> o + 6 * Z.of_nat n <= len d ->
  exists b',
    for_ n j (SencBox.read_subsample d i) (Frame b (Parser d o)) =
    (Ok tt, Frame b' (Parser d (o + 6 * Z.of_nat n))).
Proof.
  induction n as [|n IH]; intros j o b Ho Hfit.
  - exists b. cbn [for_ mret M_ret]. do 3 f_equal. lia.
  - cbn [for_]. rewrite bind_run. unfold SencBox.read_subsample at 1.
    repeat mstep. unfold SencBox.modify_sample, modify_self. cbn [self p].
    replace (o + 2 + 4) with (o + 6) by lia.
    edestruct (IH (j + 1) (o + 6)) as (b' & ->); [lia | lia |].
    exists b'. do 3 f_equal. lia.
Qed.

Lemma Senc_read_samples_outcome d subs n : forall i o b r st,
  0 <= o ->
  for_ n i (SencBox.read_sample d subs) (Frame b (Parser d o)) = (r, st) ->
  (senc_fits subs d o n /\ r = Ok tt) \/
  (~ senc_fits subs d o n /\ exists e, r = Err e /\ senc_truncation e).
Proof.
  induction n as [|n IH]; intros i o b r st Ho.
  - cbn [for_ mret M_ret]. intros [= <- <-]. by left.
  - cbn [for_ senc_fits]. rewrite bind_run. unfold SencBox.read_sample at 1.
    rewrite bind_run. cbn [get_offset p offset]. rewrite bind_run.
    destruct (Z.ltb_spec (len d) (o + 8)) as [Hc|Hc].
    { cbn [fail_if throw]. intros [= <- <-]. right. split; [lia|].
      eexists. split; [done|]. by left. }
    cbn [fail_if mret M_ret]. repeat mstep.
    unfold SencBox.modify_sample at 1, modify_self at 1. cbn [self p].
    destruct subs.
    + unfold SencBox.read_subsamples.
      rewrite bind_run. cbn [get_offset p offset]. rewrite bind_run.
      destruct (Z.ltb_spec (len d) (o + 8 + 2)) as [Hc2|Hc2].
      { cbn [fail_if throw]. intros [= <- <-]. right. split; [lia|].
        eexists. split; [done|]. right. by left. }
      cbn [fail_if mret M_ret]. repeat mstep.
      unfold SencBox.modify_sample at 1, modify_self at 1. cbn [self p].
      pose proof (u16_at_range d (o + 8)) as Hcnt.
      destruct (Z.lt_ge_cases (len d) (o + 10 + 6 * u16_at d (o + 8)))
        as [Hover|Hfit].
      * match goal with
        | |- context [for_ ?k 0 (SencBox.read_subsample d i)
                        (Frame ?bb (Parser d ?oo))] =>
            destruct (Senc_read_subsample_loop_err d i k 0 oo bb)
              as [st1 Hst]; [lia | lia | lia |]
        end.
        rewrite Hst. intros [= <- <-]. right. split; [lia|].
        eexists. split; [done|]. right. by right.
      * match goal with
        | |- context [for_ ?k 0 (SencBox.read_subsample d i)
                        (Frame ?bb (Parser d ?oo))] =>
            destruct (Senc_read_subsample_loop_runs d i k 0 oo bb)
              as [b' Hrun]; [lia | lia |]
        end.
        rewrite Hrun. rewrite Z2Nat.id by lia.
        replace (o + 8 + 2 + 6 * u16_at d (o + 8))
          with (o + 10 + 6 * u16_at d (o + 8)) by lia.
        intros Hrest. apply IH in Hrest; [|lia].
        destruct Hrest as [[Hf Hr]|[Hf Hr]]; [left | right].
        -- split; [|done]. repeat split; (lia || done).
        -- split; [|done]. intros (_ & _ & Hf'). by apply Hf.
    + repeat mstep.
      intros Hrest. apply IH in Hrest; [|lia].
      destruct Hrest as [[Hf Hr]|[Hf Hr]]; [left | right].
      * split; [|done]. repeat split; (lia || done).
      * split; [|done]. intros (_ & _ & Hf'). by apply Hf.
Qed.







Lemma samples_at_iv_length subs d n : forall o,
  0 <= o -> senc_fits subs d o n ->
  Forall (fun s => length (IV s) = 8%nat) (samples_at subs d o n).
Proof.
  induction n as [|n IH]; intros o Ho Hfit; cbn [samples_at]; [constructor|].
  destruct Hfit as (H8 & Hsub & Hrest). constructor.
  - cbn [IV]. rewrite length_slice; lia.
  - apply IH; [|done]. pose proof (u16_at_range d (o + 8)).
    destruct subs; lia.
Qed.

(** X11. The entries [SencBox.Parse] produces can be handed to
    [DecryptSample] as they are: every entry of an accepted box has an
    IV of exactly 8 bytes, so with a 16-byte block cipher the stream
    is always created (the IV is padded to one block), and the call
    returns normally on every sample that the entry's subsample layout
    fits - in particular on every sample when the entry has no
    subsamples.  The sample keeps its length. *)
Theorem SencBox_entry_decrypts b d b' s sample block :
  SencBox.Parse b d = (Ok tt, b') ->
  s ∈ SencBox.Samples b' ->
  BlockSize block = 16 ->
  starts_within (Subsamples s) 0 (len sample) ->
  length (IV s) = 8%nat /\
  fst (DecryptSample sample (Some s) block) = Ok tt /\
  length (snd (DecryptSample sample (Some s) block)) = length sample.
Proof.
  intros HP Hs Hbs Hfit.
  assert (length (IV s) = 8%nat) as Hiv.
  { destruct (Z.lt_ge_cases (len d) 8) as [H8|H8];
      [by rewrite Senc_Parse_no_header in HP|].
    destruct (Z.lt_ge_cases (len d) 16) as [H16|H16];
      [by rewrite Senc_Parse_short in HP|].
    unfold SencBox.Parse in HP. rewrite Senc_parse_prefix in HP by done.
    destruct (for_ _ _ _ _) as [r st] eqn:Hrun. injection HP as -> <-.
    pose proof Hrun as Hrun'.
    apply Senc_read_samples_outcome in Hrun' as [[Hf _]|[_ (e & He & _)]];
      [|done|lia].
    apply (Senc_read_samples_ok d _ _ [] 0 16) in Hrun; [|done|lia|lia|done].
    cbn [app] in Hrun. rewrite Hrun in Hs.
    pose proof (samples_at_iv_length _ d _ 16 ltac:(lia) Hf) as Hall.
    rewrite Forall_forall in Hall. by apply Hall. }
  split; [done|].
  unfold DecryptSample.
  assert ((len (IV s) =? 0) = false) as -> by (apply Z.eqb_neq; unfold len; lia).
  rewrite NewCTR_pad_iv by (done || (left; unfold len; lia)).
  destruct (len (Subsamples s) =? 0).
  - cbn [fst snd]. split; [done|]. apply length_XORKeyStream.
  - edestruct (decrypt_subsamples_layout (Subsamples s)) as (out & -> & Hlen & _);
      [| exact Hfit | done]. lia.
Qed.

Lemma SencBox_entry_decrypts_witness :
  fst (DecryptSample (replicate 40 x00)
         (Some {| IV := replicate 8 x11;
                  Subsamples := [ {| BytesOfClearData := 10;
                                     BytesOfProtectedData := 20 |} ] |})
         pad_block) = Ok tt.
Proof.
  eapply (SencBox_entry_decrypts SencBox.zero senc_two
            (snd (SencBox.Parse SencBox.zero senc_two))).
  - vm_compute. reflexivity.
  - vm_compute. left.
  - reflexivity.
  - cbn. unfold len. cbn. lia.
Defined.

(** ** Bytes after the box are ignored *)

Section Trailing.
Context (d ext : list byte).

Lemma len_app_ext : len (d ++ ext) = len d + len ext.
Proof. unfold len. rewrite length_app. lia. Qed.

Lemma slice_app_ext lo hi :
  0 <= lo -> hi <= len d -> slice (d ++ ext) lo hi = slice d lo hi.
Proof.
  intros Hlo Hhi. unfold slice, len in *.
  destruct (Z.le_gt_cases lo hi) as [Hle|Hgt].
  - rewrite drop_app_le by lia. apply take_app_le.
    rewrite length_drop. lia.
  - by replace (Z.to_nat (hi - lo)) with 0%nat by lia.
Qed.

Lemma byte_at_app_ext o :
  0 <= o -> o + 1 <= len d -> byte_at (d ++ ext) o = byte_at d o.
Proof. intros. unfold byte_at. by rewrite slice_app_ext. Qed.

Lemma u16_at_app_ext o :
  0 <= o -> o + 2 <= len d -> u16_at (d ++ ext) o = u16_at d o.
Proof. intros. unfold u16_at. by rewrite slice_app_ext. Qed.

Lemma u32_at_app_ext o :
  0 <= o -> o + 4 <= len d -> u32_at (d ++ ext) o = u32_at d o.
Proof. intros. unfold u32_at. by rewrite slice_app_ext. Qed.

Lemma header_of_app_ext h :
  8 <= len d -> header_of h (d ++ ext) = header_of h d.
Proof.
  intros. unfold header_of. by rewrite u32_at_app_ext, slice_app_ext by lia.
Qed.
End Trailing.

(** X12. [TencBox.Parse] looks at no byte beyond what it reads: when
    it accepts a buffer, it accepts the same buffer followed by any
    further bytes and leaves the receiver in the same state. *)
Theorem TencBox_Parse_trailing b d ext b' :
  TencBox.Parse b d = (Ok tt, b') ->
  TencBox.Parse b (d ++ ext) = (Ok tt, b').
Proof.
  intros HP. pose proof (len_app_ext d ext) as HL.
  assert (0 <= len ext) as Hext by (unfold len; lia).
  destruct (Z.lt_ge_cases (len d) 8) as [H8|H8];
    [by rewrite Tenc_Parse_no_header in HP|].
  destruct (Z.lt_ge_cases (len d) 12) as [H12|H12];
    [by rewrite Tenc_Parse_short in HP|].
  destruct (Byte.byte_eq_dec (byte_at d 8) x00) as [Hv|Hv].
  - destruct (Z.lt_ge_cases (len d) 32) as [H32|H32];
      [by rewrite Tenc_Parse_v0_short in HP|].
    rewrite Tenc_Parse_v0_run in HP by done.
    rewrite Tenc_Parse_v0_run
      by (rewrite ?byte_at_app_ext by lia; (done || lia)).
    cbv zeta in *.
    assert (tenc_wants_tail (d ++ ext) = tenc_wants_tail d) as ->.
    { unfold tenc_wants_tail.
      by rewrite !byte_at_app_ext, u32_at_app_ext by lia. }
    rewrite !byte_at_app_ext, u32_at_app_ext, header_of_app_ext, slice_app_ext
      by lia.
    destruct (tenc_wants_tail d); [|done].
    rewrite Tenc_parse_constant_iv_run in HP by done.
    rewrite Tenc_parse_constant_iv_run by lia.
    pose proof (u8_range (byte_at d 32)).
    destruct (Z.ltb_spec (len d) 33); [done|].
    destruct (Z.ltb_spec (len d) (33 + u8 (byte_at d 32))); [done|].
    rewrite byte_at_app_ext by lia.
    do 2 ltb_decide. by rewrite slice_app_ext by lia.
  - rewrite Tenc_Parse_other_run in HP by done.
    rewrite Tenc_Parse_other_run by (rewrite ?byte_at_app_ext by lia; (done || lia)).
    by rewrite byte_at_app_ext, u32_at_app_ext, header_of_app_ext by lia.
Qed.

Lemma TencBox_Parse_trailing_witness :
  TencBox.Parse TencBox.zero (tenc_tail ++ [xde; xad]) =
  (Ok tt, snd (TencBox.Parse TencBox.zero tenc_tail)).
Proof. apply TencBox_Parse_trailing. vm_compute. reflexivity. Defined.

Lemma kids_at_app_ext d ext n : forall o,
  0 <= o -> o + 16 * Z.of_nat n <= len d ->
  kids_at (d ++ ext) o n = kids_at d o n.
Proof.
  induction n as [|n IH]; intros o Ho Hfit; cbn [kids_at]; [done|].
  rewrite slice_app_ext, IH by lia. done.
Qed.

Lemma pssh_fixed_app_ext b d ext :
  28 <= len d -> pssh_fixed b (d ++ ext) = pssh_fixed b d.
Proof.
  intros H. unfold pssh_fixed.
  by rewrite header_of_app_ext, byte_at_app_ext, !slice_app_ext by lia.
Qed.

Lemma Pssh_parse_data_app_ext b d ext o st :
  0 <= o -> o <= len d ->
  PsshBox.parse_data d (Frame b (Parser d o)) = (Ok tt, st) ->
  exists st',
    PsshBox.parse_data (d ++ ext) (Frame b (Parser (d ++ ext) o)) = (Ok tt, st') /\
    self st' = self st.
Proof.
  intros Ho Hle. pose proof (len_app_ext d ext) as HL.
  assert (0 <= len ext) as Hext by (unfold len; lia).
  pose proof (u32_at_range d o).
  rewrite !Pssh_parse_data_run by lia.
  destruct (Z.ltb_spec (len d) (o + 4)); [done|].
  destruct (Z.ltb_spec (len d) (o + 4 + u32_at d o)); [done|].
  intros [= <-]. rewrite u32_at_app_ext by lia. do 2 ltb_decide.
  eexists. split; [done|]. cbn [self]. by rewrite slice_app_ext by lia.
Qed.

(** X13. [PsshBox.Parse] looks at no byte beyond what it reads: when
    it accepts a buffer, it accepts the same buffer followed by any
    further bytes and leaves the receiver in the same state. *)
Theorem PsshBox_Parse_trailing b d ext b' :
  PsshBox.Parse b d = (Ok tt, b') ->
  PsshBox.Parse b (d ++ ext) = (Ok tt, b').
Proof.
  intros HP. pose proof (len_app_ext d ext) as HL.
  assert (0 <= len ext) as Hext by (unfold len; lia).
  pose proof (u32_at_range d 28) as HK.
  pose proof (u8_range (byte_at d 8)) as HV.
  destruct (Z.lt_ge_cases (len d) 8) as [H8|H8];
    [by rewrite Pssh_Parse_no_header in HP|].
  destruct (Z.lt_ge_cases (len d) 28) as [H28|H28];
    [by rewrite Pssh_Parse_short in HP|].
  destruct (Byte.byte_eq_dec (byte_at d 8) x00) as [Hv|Hv].
  - rewrite Pssh_Parse_v0 in HP by done.
    rewrite Pssh_Parse_v0 by (rewrite ?byte_at_app_ext by lia; (done || lia)).
    rewrite pssh_fixed_app_ext by done.
    destruct (PsshBox.parse_data d _) as [r st] eqn:Hrun.
    injection HP as -> <-.
    apply (Pssh_parse_data_app_ext _ _ ext) in Hrun as (st' & -> & <-);
      (done || lia).
  - assert (0 < u8 (byte_at d 8)) as Hpos.
    { destruct (Z.eq_dec (u8 (byte_at d 8)) 0) as [H0|H0]; [|lia].
      by apply u8_zero_inv in H0. }
    destruct (Z.lt_ge_cases (len d) 32) as [H32|H32];
      [by rewrite Pssh_Parse_v1_no_count in HP|].
    destruct (Z.lt_ge_cases (len d) (32 + u32_mul (u32_at d 28) 16)) as [Hc|Hc];
      [by rewrite Pssh_Parse_v1_check in HP|].
    destruct (Z.lt_ge_cases (len d) (32 + 16 * u32_at d 28)) as [Hfit|Hfit].
    { pose proof (Pssh_Parse_v1_overrun b d H32 Hpos Hc Hfit) as Hp.
      by rewrite HP in Hp. }
    rewrite Pssh_Parse_v1_kids in HP by done.
    rewrite Pssh_Parse_v1_kids
      by (rewrite ?byte_at_app_ext, ?u32_at_app_ext by lia; (done || lia)).
    rewrite u32_at_app_ext, pssh_fixed_app_ext, kids_at_app_ext by lia.
    destruct (PsshBox.parse_data d _) as [r st] eqn:Hrun.
    injection HP as -> <-.
    apply (Pssh_parse_data_app_ext _ _ ext) in Hrun as (st' & -> & <-);
      (done || lia).
Qed.

Lemma PsshBox_Parse_trailing_witness :
  PsshBox.Parse PsshBox.zero (pssh_two ++ [xde; xad]) =
  (Ok tt, snd (PsshBox.Parse PsshBox.zero pssh_two)).
Proof. apply PsshBox_Parse_trailing. vm_compute. reflexivity. Defined.

Lemma subsamples_at_app_ext d ext n : forall o,
  0 <= o -> o + 6 * Z.of_nat n <= len d ->
  subsamples_at (d ++ ext) o n = subsamples_at d o n.
Proof.
  induction n as [|n IH]; intros o Ho Hfit; cbn [subsamples_at]; [done|].
  unfold subsample_at. rewrite u16_at_app_ext, u32_at_app_ext, IH by lia. done.
Qed.

Lemma senc_layout_app_ext subs d ext n : forall o,
  0 <= o -> senc_fits subs d o n ->
  senc_fits subs (d ++ ext) o n /\
  samples_at subs (d ++ ext) o n = samples_at subs d o n.
Proof.
  pose proof (len_app_ext d ext) as HL.
  assert (0 <= len ext) as Hext by (unfold len; lia).
  induction n as [|n IH]; intros o Ho Hfit; cbn [senc_fits samples_at]; [done|].
  destruct Hfit as (H8 & Hsub & Hrest).
  pose proof (u16_at_range d (o + 8)) as Hcnt.
  destruct subs.
  - destruct Hsub as [H10 Hall].
    rewrite u16_at_app_ext, slice_app_ext by lia.
    destruct (IH (o + 10 + 6 * u16_at d (o + 8))) as [Hf Hs]; [lia | done |].
    rewrite Hs, subsamples_at_app_ext by lia.
    split; [|done]. repeat split; (lia || done).
  - rewrite slice_app_ext by lia.
    destruct (IH (o + 8)) as [Hf Hs]; [lia | done |].
    rewrite Hs. split; [|done]. repeat split; (lia || done).
Qed.

(** X14. [SencBox.Parse] looks at no byte beyond what it reads: when
    it accepts a buffer, it accepts the same buffer followed by any
    further bytes and leaves the receiver in the same state. *)
Theorem SencBox_Parse_trailing b d ext b' :
  SencBox.Parse b d = (Ok tt, b') ->
  SencBox.Parse b (d ++ ext) = (Ok tt, b').
Proof.
  intros HP. pose proof (len_app_ext d ext) as HL.
  assert (0 <= len ext) as Hext by (unfold len; lia).
  destruct (Z.lt_ge_cases (len d) 8) as [H8|H8];
    [by rewrite Senc_Parse_no_header in HP|].
  destruct (Z.lt_ge_cases (len d) 16) as [H16|H16];
    [by rewrite Senc_Parse_short in HP|].
  unfold SencBox.Parse in *.
  rewrite Senc_parse_prefix in HP by done. rewrite Senc_parse_prefix by lia.
  rewrite !u32_at_app_ext by lia.
  set (subs := negb (Z.land (Z.land (u32_at d 8) 16777215) 2 =? 0)) in *.
  set (n := Z.to_nat (u32_at d 12)) in *.
  assert (senc_fixed b (d ++ ext) = senc_fixed b d) as ->.
  { unfold senc_fixed. by rewrite !u32_at_app_ext, header_of_app_ext by lia. }
  pose proof (untouched_for _ n 0 _ (Senc_read_sample_untouched d subs)
                (Frame (senc_fixed b d) (Parser d 16))) as Hk1.
  pose proof (untouched_for _ n 0 _ (Senc_read_sample_untouched (d ++ ext) subs)
                (Frame (senc_fixed b d) (Parser (d ++ ext) 16))) as Hk2.
  destruct (for_ n 0 (SencBox.read_sample d subs) _) as [r st] eqn:Hrun.
  destruct (for_ n 0 (SencBox.read_sample (d ++ ext) subs) _) as [r' st'] eqn:Hrun'.
  injection HP as -> <-. cbn [snd self] in Hk1, Hk2.
  pose proof Hrun as Hfit.
  apply Senc_read_samples_outcome in Hfit as [[Hf _]|[_ (e & He & _)]];
    [|done|lia].
  destruct (senc_layout_app_ext subs d ext n 16) as [Hf' Hs']; [lia | done |].
  pose proof Hrun' as Hok.
  apply Senc_read_samples_outcome in Hok as [[_ ->]|[Hno _]]; [|done|lia].
  apply (Senc_read_samples_ok d subs n [] 0 16) in Hrun; [|done|lia|lia|done].
  apply (Senc_read_samples_ok (d ++ ext) subs n [] 0 16) in Hrun';
    [|done|lia|lia|done].
  cbn [app] in Hrun, Hrun'. rewrite Hs' in Hrun'.
  f_equal. destruct (self st) as [h1 f1 s1], (self st') as [h2 f2 s2].
  cbn [SencBox.Header SencBox.Flags SencBox.Samples] in *.
  injection Hk1 as -> -> _. injection Hk2 as -> -> _. by subst.
Qed.

Lemma SencBox_Parse_trailing_witness :
  SencBox.Parse SencBox.zero (senc_two ++ [xde; xad]) =
  (Ok tt, snd (SencBox.Parse SencBox.zero senc_two)).
Proof. apply SencBox_Parse_trailing. vm_compute. reflexivity. Defined.

(** ** The decryptor: one range for the whole sample, and bit flips *)

Lemma slice_all {A : Type} (l : list A) : slice l 0 (len l) = l.
Proof.
  unfold slice, len. cbn [Z.to_nat drop]. rewrite Z.sub_0_r, Nat2Z.id.
  by apply take_ge.
Qed.

Lemma splice_all (sample chunk : list byte) :
  splice sample 0 (len sample) chunk = chunk.
Proof.
  unfold splice, len. cbn [Z.to_nat take app]. rewrite Nat2Z.id, drop_all.
  apply app_nil_r.
Qed.

(** X15. A single subsample with no clear bytes whose protected length
    is at least the length of the sample decrypts exactly as an empty
    subsample list does: the whole sample, with the protected length
    cut at the end of the buffer. *)
Theorem DecryptSample_whole_as_subsample sample iv block m :
  len sample <= m ->
  DecryptSample sample
    (Some {| IV := iv;
             Subsamples := [ {| BytesOfClearData := 0;
                                BytesOfProtectedData := m |} ] |}) block =
  DecryptSample sample (Some {| IV := iv; Subsamples := [] |}) block.
Proof.
  intros Hm. unfold DecryptSample. cbn [IV Subsamples].
  destruct (len iv =? 0); [done|].
  destruct (NewCTR block (pad_iv iv)) as [stream|e|e]; [|done|done].
  change (len [_] =? 0) with false.
  change (len (@nil SubsampleInfo) =? 0) with true. cbv iota.
  assert (0 <= len sample) as Hl by (unfold len; lia).
  destruct (Z.eq_dec m 0) as [->|Hnz].
  - assert (sample = []) as -> by (destruct sample; [done | unfold len in *; cbn in *; lia]).
    done.
  - rewrite (decrypt_subsamples_protected _ _ _ _ _ 0 (len sample))
      by (cbn [BytesOfClearData BytesOfProtectedData]; lia).
    cbn [decrypt_subsamples]. by rewrite slice_all, splice_all.
Qed.

Lemma DecryptSample_whole_as_subsample_witness :
  DecryptSample (replicate 20 x00)
    (Some {| IV := iv8;
             Subsamples := [ {| BytesOfClearData := 0;
                                BytesOfProtectedData := 4294967295 |} ] |})
    pad_block =
  DecryptSample (replicate 20 x00) (Some {| IV := iv8; Subsamples := [] |})
    pad_block.
Proof. apply DecryptSample_whole_as_subsample. vm_compute. discriminate. Defined.

(** X16. Decryption commutes with exclusive-or on the buffer: for two
    buffers of one length, decrypting [a xor m] ends as decrypting [m]
    does and leaves [a] exclusive-or the decryption of [m].  So
    flipping bits of the ciphertext flips exactly the same bits of the
    result, for every info and cipher. *)
Theorem DecryptSample_xor a m info block :
  length a = length m ->
  DecryptSample (xor_bytes a m) info block =
  (fst (DecryptSample m info block),
   xor_bytes a (snd (DecryptSample m info block))).
Proof.
  intros Hlen. unfold DecryptSample.
  destruct info as [info|]; [|done].
  destruct (len (IV info) =? 0); [done|].
  destruct (NewCTR block (pad_iv (IV info))) as [stream|e|e]; [|done|done].
  destruct (len (Subsamples info) =? 0).
  - cbn [fst snd]. by rewrite XORKeyStream_xor.
  - by apply decrypt_subsamples_xor.
Qed.

Lemma DecryptSample_xor_witness :
  DecryptSample (xor_bytes (replicate 40 x01) (replicate 40 x00))
    (Some {| IV := iv8; Subsamples := two_subsamples |}) pad_block =
  (Ok tt,
   xor_bytes (replicate 40 x01)
     (snd (DecryptSample (replicate 40 x00)
             (Some {| IV := iv8; Subsamples := two_subsamples |}) pad_block))).
Proof.
  rewrite (DecryptSample_xor (replicate 40 x01) (replicate 40 x00));
    [|reflexivity].
  f_equal.
Defined.
